(** * docsdownloader: a shallow embedding of [src/downloader.js]

    The class [DocDownloader] crawls a documentation site breadth first,
    probes every page for a native markdown counterpart, converts HTML
    to markdown otherwise and mirrors the site on disk.

    Layout of this development:
    - [JsString]: the string methods of JavaScript the source relies on;
    - the data model, and [Pure]: the helpers of the class that read
      nothing but their arguments ([shouldSkipUrl], [getSiteName], the
      candidate list and the header test of [checkForMarkdownVersion], the
      path clean-up of [getFilePath]);
    - [Platform] and [World]: the libraries the class calls (URL, path,
      cheerio, turndown, the regular expressions of [isLikelyMarkdown]) and
      the network and clock, by which the crawler is parameterised;
    - section [Crawler]: the methods, in a monad of state and exceptions
      over the visited set, the queue, the disk and a trace of effects;
    - [Fixture]: a small concrete platform and a few sites to run it on;
    - the theorems: how the methods treat the bookkeeping of the crawl,
      the loop of [download], and the properties of the crawl (C1 to C10).

    Strings are byte strings; JavaScript numbers that hold depths and
    status codes are integers ([Z]). Calls of the file system succeed. *)

From stdpp Require Import gmap strings list fin_maps.
From Stdlib Require Import ZArith Ascii String Lia Sorted.

#[local] Set Warnings "-clear-no-such-hyp".

Open Scope string_scope.
Open Scope list_scope.
Open Scope Z_scope.

(** ** JavaScript string methods *)

Module JsString.

(** [s.startsWith(p)] *)
Definition startsWith (s p : string) : bool := String.prefix p s.

(** [s.endsWith(p)] *)
Definition endsWith (s p : string) : bool :=
  let n := String.length s in
  let k := String.length p in
  (k <=? n)%nat && String.eqb (substring (n - k) k s) p.

(** [s.includes(p)] *)
Fixpoint includes (s p : string) : bool :=
  String.prefix p s ||
  match s with
  | EmptyString => false
  | String _ s' => includes s' p
  end.

Definition lower_ascii (c : ascii) : ascii :=
  let n := nat_of_ascii c in
  if ((65 <=? n) && (n <=? 90))%nat then ascii_of_nat (n + 32) else c.

(** [s.toLowerCase()] on ASCII letters *)
Fixpoint toLowerCase (s : string) : string :=
  match s with
  | EmptyString => EmptyString
  | String c s' => String (lower_ascii c) (toLowerCase s')
  end.

(** White space of [String.prototype.trim] within ASCII:
    TAB, LF, VT, FF, CR and SPACE. *)
Definition is_space (c : ascii) : bool :=
  let n := nat_of_ascii c in
  ((9 <=? n) && (n <=? 13) || (n =? 32))%nat.

Fixpoint trimStart (s : string) : string :=
  match s with
  | EmptyString => EmptyString
  | String c s' => if is_space c then trimStart s' else s
  end.

(** Drops trailing white space: a character is kept as soon as
    something that is kept follows it. *)
Fixpoint trimEnd (s : string) : string :=
  match s with
  | EmptyString => EmptyString
  | String c s' =>
      match trimEnd s' with
      | EmptyString => if is_space c then EmptyString else String c EmptyString
      | t => String c t
      end
  end.

(** [s.trim()] *)
Definition trim (s : string) : string := trimEnd (trimStart s).

(** The first of [needles] that is a prefix of [s], with what follows it. *)
Fixpoint match_at (needles : list string) (s : string) : option string :=
  match needles with
  | [] => None
  | n :: ns =>
      if String.prefix n s
      then Some (substring (String.length n) (String.length s - String.length n) s)
      else match_at ns s
  end.

(** [s.replace(re, repl)] for a pattern without the [g] flag whose
    language is the finite list [needles], alternatives in the order the
    regular expression tries them: the leftmost match is replaced. With a
    single needle it is [s.replace('needle', repl)]. *)
Fixpoint replace_first (needles : list string) (repl s : string) : string :=
  match match_at needles s with
  | Some rest => repl +:+ rest
  | None =>
      match s with
      | EmptyString => EmptyString
      | String c s' => String c (replace_first needles repl s')
      end
  end.

(** [s.replace(/(n1|n2|...)$/, repl)]: the pattern is anchored at the
    end, so the only match is a suffix of [s]. *)
Fixpoint replace_suffix (needles : list string) (repl s : string) : string :=
  if existsb (String.eqb s) needles then repl
  else match s with
       | EmptyString => EmptyString
       | String c s' => String c (replace_suffix needles repl s')
       end.

(** [s.replace(/^n/, repl)] *)
Definition replace_prefix (n repl s : string) : string :=
  match match_at [n] s with
  | Some rest => repl +:+ rest
  | None => s
  end.

(** [s.replace(/[cs]/g, repl)]: every character of the class [cs] is
    replaced. *)
Fixpoint replace_chars (cs : list ascii) (repl : ascii) (s : string) : string :=
  match s with
  | EmptyString => EmptyString
  | String c s' =>
      String (if existsb (Ascii.eqb c) cs then repl else c)
             (replace_chars cs repl s')
  end.

End JsString.

Import JsString.


(** ** Data model *)

(** What the source reads of a parsed [URL] object. *)
Record URL := mkURL {
  hostname : string;
  pathname : string;
  href : string
}.

(** An entry of [this.siteConfig], the parsed JSON configuration: every
    key is optional. *)
Record SiteConfig := mkSiteConfig {
  contentSelector : option string;
  skipPatterns : option (list string);
  cfg_maxDepth : option Z;
  preferMarkdown : bool
}.

(** [{}], the configuration of a host name that has no entry. *)
Definition noConfig : SiteConfig := mkSiteConfig None None None false.

(** An element [{url, depth}] of [this.queue]. *)
Record FrontierEntry := mkEntry {
  url : string;
  depth : Z
}.

(** What the source reads of an axios response. [content_type] is
    [response.headers['content-type']], [None] when the header is unset;
    [data] is the body, empty for a HEAD request. *)
Record Response := mkResponse {
  status : Z;
  content_type : option string;
  data : string
}.

(** ** Pure helpers of the class *)

Module Pure.

(** The two shapes of regular expression in [shouldSkipUrl]: a
    case-insensitive extension anchored at the end of the URL, and a
    literal found anywhere. *)
Inductive Pattern :=
| Extension (exts : list string)
| Literal (s : string).

(** [pattern.test(url)] *)
Definition test (p : Pattern) (url : string) : bool :=
  match p with
  | Extension exts =>
      existsb (fun e => endsWith (toLowerCase url) ("." +:+ e)) exts
  | Literal s => includes url s
  end.

(** The local [skipPatterns] array of [shouldSkipUrl]. *)
Definition defaultSkipPatterns : list Pattern :=
  [ Extension ["pdf"; "jpg"; "jpeg"; "png"; "gif"; "svg"; "ico"; "css"; "js"];
    Literal "#";
    Literal "/api/";
    Literal "/login";
    Literal "/register";
    Literal "/admin";
    Literal "/search";
    Literal "mailto:";
    Literal "tel:" ].

(** [shouldSkipUrl(url)]: the method reads nothing but its argument. *)
Definition shouldSkipUrl (url : string) : bool :=
  existsb (fun pattern => test pattern url) defaultSkipPatterns.

(** [getSiteName(hostname)] *)
Definition getSiteName (hostname : string) : string :=
  replace_chars ["."%char] "_"%char (replace_prefix "www." "" hostname).

(** The character class of the last [replace] of [getFilePath]: less
    than, greater than, colon, double quote (code 34), bar, question
    mark and star. *)
Definition unsafeChars : list ascii :=
  ["<"; ">"; ":"; "034"; "|"; "?"; "*"]%char.

(** The body of [getFilePath] between [urlObj.pathname] and
    [path.join]: from the path name of the URL to [safePath]. *)
Definition safePath (pathname : string) : string :=
  let pathname :=
    if String.eqb pathname "/" || String.eqb pathname "" then "/index"
    else pathname in
  let pathname := replace_suffix ["/"] "" pathname in
  let pathname :=
    if negb (endsWith pathname ".md") then pathname +:+ ".md" else pathname in
  replace_chars unsafeChars "_"%char (replace_prefix "/" "" pathname).

(** The array [possibleMdUrls] of [checkForMarkdownVersion], in order. *)
Definition possibleMdUrls (url : string) : list string :=
  let baseUrl := replace_suffix ["/"] "" url in
  [ baseUrl +:+ ".md";
    baseUrl +:+ "/index.md";
    baseUrl +:+ "/README.md";
    baseUrl +:+ "/content.md";
    replace_suffix [".html"; ".htm"] ".md" url;
    url +:+ ".md";
    url +:+ "/index.md";
    replace_first ["/blob/"] "/"
      (replace_first ["github.com"] "raw.githubusercontent.com" url);
    replace_first ["/blob/"] "/raw/" url;
    replace_first ["/docs/"; "/doc/"] "/docs/" baseUrl +:+ ".md";
    replace_first ["/guide/"; "/guid/"] "/guide/" baseUrl +:+ ".md" ].

(** [response.headers['content-type']?.toLowerCase() || ''] *)
Definition contentTypeOf (r : Response) : string :=
  match content_type r with
  | Some c => toLowerCase c
  | None => ""
  end.

(** The [else] branch of [if (response.data)] in
    [checkForMarkdownVersion]: the test on the headers alone, [true]
    when the branch returns [mdUrl]. *)
Definition headersLookMarkdown (contentType mdUrl : string) : bool :=
  let isLikelyMarkdown :=
    includes contentType "text/plain" ||
    includes contentType "markdown" ||
    includes contentType "text/markdown" ||
    includes contentType "application/octet-stream" ||
    String.eqb contentType "" ||
    endsWith mdUrl ".md" in
  let isHtml := includes contentType "text/html" in
  isLikelyMarkdown && negb isHtml.

(** [content.trim().startsWith('<!DOCTYPE html') ||
     content.trim().startsWith('<html')] *)
Definition startsLikeHtml (content : string) : bool :=
  startsWith (trim content) "<!DOCTYPE html" ||
  startsWith (trim content) "<html".

End Pure.

Import Pure.

(** ** The environment of the crawler *)

(** The library functions the class calls. They are not part of the
    repository; the crawler is parameterised by them.
    - [URL_parse s] is [new URL(s)] and [URL_resolve href base] is
      [new URL(href, base)]; [None] when the constructor throws.
    - [path_join], [path_dirname], [path_basename]: Node's [path].
    - [Dom] is a loaded document, the [$] of the source, and [Elem] one of
      its elements. [cheerio_load html] is [cheerio.load(html)];
      [cheerio_hrefs $] lists, in document order, the [href] attributes of
      the elements of [$('a[href]')]; [cheerio_remove sel $] is the
      document after [$(sel).remove()]; [cheerio_html sel $] is
      [$(sel).html()], [None] for [null]; [cheerio_get sel $] is
      [$(sel).get()]; for an element [el], [elem_text $ el] is
      [$(el).text()], [elem_find $ el sel] is [$(el).find(sel).length] and
      [elem_html $ el] is [$(el).html()].
    - [turndown] is [this.turndown.turndown].
    - [re_markdownPatterns] and [re_htmlTags] are the two regular
      expression tests of [isLikelyMarkdown], and [re_cleanContent] is the
      chain of regular expression replacements of [cleanContent]. *)
Record Platform := mkPlatform {
  URL_parse : string → option URL;
  URL_resolve : string → string → option URL;
  path_join : string → string → string;
  path_dirname : string → string;
  path_basename : string → string;
  Dom : Type;
  Elem : Type;
  cheerio_load : string → Dom;
  cheerio_hrefs : Dom → list string;
  cheerio_remove : string → Dom → Dom;
  cheerio_html : string → Dom → option string;
  cheerio_get : string → Dom → list Elem;
  elem_text : Dom → Elem → string;
  elem_find : Dom → Elem → string → nat;
  elem_html : Dom → Elem → option string;
  turndown : string → string;
  re_markdownPatterns : string → bool;
  re_htmlTags : string → bool;
  re_cleanContent : string → string
}.

(** The four kinds of request the class issues: the HEAD probe and its
    ranged GET fallback in [checkForMarkdownVersion], the GET of
    [downloadMarkdown], the GET of [fetchPage]. *)
Inductive Request := HeadProbe | RangeProbe | GetMarkdown | GetPage.

(** The outside world. Every interaction with it is numbered: [net t req u]
    is what the [t]-th interaction yields when it is the request [req] for
    [u] ([None]: no response, the promise rejects), [clock t] is
    [new Date().toISOString()] when the [t]-th interaction reads the
    time. *)
Record World := mkWorld {
  net : nat → Request → string → option Response;
  clock : nat → string
}.

(** The fields of a [DocDownloader] that are fixed once constructed. *)
Record Downloader := mkDownloader {
  maxDepth : Z;
  outputDir : string;
  force : bool;
  includeMetadata : bool;
  siteConfig : gmap string SiteConfig
}.

(** The constructor. [None] stands for an option that is [undefined] (or
    [NaN] for the depth); [config] is the content of the configuration
    file, empty when none is given or when it cannot be read. Zero and the
    empty string are falsy, so the defaults replace them too. *)
Definition newDocDownloader (o_maxDepth : option Z) (o_outputDir : option string)
    (o_force o_includeMetadata : bool) (config : gmap string SiteConfig) : Downloader :=
  {| maxDepth := match o_maxDepth with
                 | Some d => if d =? 0 then 3 else d
                 | None => 3
                 end;
     outputDir := match o_outputDir with
                  | Some d => if String.eqb d "" then "./downloads" else d
                  | None => "./downloads"
                  end;
     force := o_force;
     includeMetadata := o_includeMetadata;
     siteConfig := config |}.

(** Console output. *)
Inductive Msg :=
| MsgOutputDirectory (siteDir : string)
| MsgProcessing (url : string) (depth : Z)
| MsgFailedToProcess (url : string)
| MsgFoundMarkdown (mdUrl : string)
| MsgNoMarkdownSkipping
| MsgConverting
| MsgReturnedHtml (mdUrl : string)
| MsgFailedToDownloadMarkdown (mdUrl : string)
| MsgAttemptFailed (attempt : Z) (url : string)
| MsgFailedToFetch (url : string) (attempts : Z)
| MsgSkippingExisting (basename : string)
| MsgSaved (basename : string).

(** The observable trace of a crawl, oldest event first. *)
Inductive Event :=
| EvVisited (url : string)                 (* [this.visited.add(url)] *)
| EvLog (m : Msg)                          (* [console.log] *)
| EvWarn (m : Msg)                         (* [console.warn] *)
| EvDelay (ms : Z)                         (* [this.delay(ms)] *)
| EvRequest (req : Request) (url : string) (* an axios call *)
| EvEnsureDir (dir : string)               (* [fs.ensureDir] *)
| EvWriteFile (path content : string).     (* [fs.writeFile] *)

(** The mutable state: [this.visited], [this.queue], the file system (the
    regular files with their content, the directories), the number of
    interactions with the world so far, and the trace. File-system calls
    do not fail in this model. *)
Record State := mkState {
  visited : gset string;
  queue : list FrontierEntry;
  files : gmap string string;
  dirs : gset string;
  tick : nat;
  log : list Event
}.

Definition set_visited (v : gset string) (s : State) : State :=
  mkState v (queue s) (files s) (dirs s) (tick s) (log s).
Definition set_queue (q : list FrontierEntry) (s : State) : State :=
  mkState (visited s) q (files s) (dirs s) (tick s) (log s).
Definition set_files (f : gmap string string) (s : State) : State :=
  mkState (visited s) (queue s) f (dirs s) (tick s) (log s).
Definition set_dirs (d : gset string) (s : State) : State :=
  mkState (visited s) (queue s) (files s) d (tick s) (log s).
Definition next_tick (s : State) : State :=
  mkState (visited s) (queue s) (files s) (dirs s) (S (tick s)) (log s).
Definition record (ev : Event) (s : State) : State :=
  mkState (visited s) (queue s) (files s) (dirs s) (tick s) (log s ++ [ev]).

(** ** The monad of the methods: state and exceptions *)

Inductive Result (A : Type) :=
| Ok (a : A)
| Throw (e : string).
Arguments Ok {A} a.
Arguments Throw {A} e.

Definition M (A : Type) : Type := State → Result A * State.

#[global] Instance M_ret : MRet M := λ A a s, (Ok a, s).
#[global] Instance M_bind : MBind M := λ A B f m s,
  match m s with
  | (Ok a, s') => f a s'
  | (Throw e, s') => (Throw e, s')
  end.

Definition throw {A} (e : string) : M A := λ s, (Throw e, s).

(** [try { m } catch (error) { h error }] *)
Definition try_catch {A} (m : M A) (h : string → M A) : M A := λ s,
  match m s with
  | (Ok a, s') => (Ok a, s')
  | (Throw e, s') => h e s'
  end.

Definition gets {A} (f : State → A) : M A := λ s, (Ok (f s), s).
Definition modify (f : State → State) : M unit := λ s, (Ok tt, f s).
Definition emit (ev : Event) : M unit := modify (record ev).

(** An optional value that must be there: [None] throws. *)
Definition orThrow {A} (e : string) (o : option A) : M A :=
  match o with
  | Some a => mret a
  | None => throw e
  end.

(** The line feed. *)
Definition nl : string := String "010"%char EmptyString.

(** ** The methods of [DocDownloader] *)

Section Crawler.

Context (P : Platform) (W : World) (D : Downloader).

(** [new URL(s)], which throws on a string that is no URL. *)
Definition new_URL (s : string) : M URL := orThrow "Invalid URL" (URL_parse P s).

Definition console_log (m : Msg) : M unit := emit (EvLog m).
Definition console_warn (m : Msg) : M unit := emit (EvWarn m).

(** [delay(ms)] *)
Definition delay (ms : Z) : M unit := emit (EvDelay ms).

(** An axios call: the request is issued, and the promise rejects when
    there is no response or when [validateStatus] refuses the status. *)
Definition axios (req : Request) (u : string) (validateStatus : Z → bool) : M Response :=
  λ s,
    let s' := next_tick (record (EvRequest req u) s) in
    match net W (tick s) req u with
    | Some r =>
        if validateStatus (status r) then (Ok r, s')
        else (Throw "Request failed with status code", s')
    | None => (Throw "Network Error", s')
    end.

(** The default [validateStatus] of axios. *)
Definition defaultStatus (st : Z) : bool := (200 <=? st) && (st <? 300).

(** The [validateStatus] of [fetchPage]. *)
Definition pageStatus (st : Z) : bool := (200 <=? st) && (st <? 400).

(** [this.siteConfig[hostname] || {}] *)
Definition configOf (host : string) : SiteConfig :=
  default noConfig (siteConfig D !! host).

(** [isLikelyMarkdown(content)] *)
Definition isLikelyMarkdown (content : string) : bool :=
  if String.eqb content "" || (String.length content <? 10)%nat then false
  else
    let hasMarkdownPatterns := re_markdownPatterns P content in
    let hasHtmlTags := re_htmlTags P content in
    hasMarkdownPatterns ||
    (negb hasHtmlTags && includes content nl && (50 <? String.length content)%nat).

(** The body of [checkForMarkdownVersion] after the response of a
    candidate has arrived: [true] when [return mdUrl] is reached. *)
Definition acceptsResponse (mdUrl : string) (response : Response) : bool :=
  if (status response =? 200) || (status response =? 206) then
    let contentType := contentTypeOf response in
    if negb (String.eqb (data response) "") then
      let content := trim (data response) in
      let isMarkdown := isLikelyMarkdown content in
      let isHtml :=
        startsWith content "<!DOCTYPE html" ||
        startsWith content "<html" ||
        includes contentType "text/html" in
      isMarkdown && negb isHtml
    else headersLookMarkdown contentType mdUrl
  else false.

(** The request for one candidate: HEAD first, a ranged GET when HEAD
    fails. *)
Definition probe (mdUrl : string) : M Response :=
  try_catch (axios HeadProbe mdUrl defaultStatus)
            (λ _, axios RangeProbe mdUrl defaultStatus).

(** The [for] loop of [checkForMarkdownVersion]. *)
Fixpoint probeCandidates (candidates : list string) : M (option string) :=
  match candidates with
  | [] => mret None
  | mdUrl :: rest =>
      found ← try_catch (response ← probe mdUrl;
                         mret (acceptsResponse mdUrl response))
                        (λ _, mret false);
      if found : bool then mret (Some mdUrl) else probeCandidates rest
  end.

(** [checkForMarkdownVersion(url)] *)
Definition checkForMarkdownVersion (url : string) : M (option string) :=
  _ ← new_URL url;
  probeCandidates (possibleMdUrls url).

Definition maxRetries : Z := 3.
Definition retryDelay : Z := 1000.

(** The [for] loop of [fetchPage], from attempt number [attempt] on,
    with [left] iterations before [attempt] exceeds [maxRetries]. *)
Fixpoint fetchPage_from (left : nat) (attempt : Z) (url : string) : M (option Response) :=
  match left with
  | O => mret None
  | S left' =>
      try_catch (response ← axios GetPage url pageStatus; mret (Some response))
        (λ _,
           if attempt =? maxRetries then
             console_warn (MsgFailedToFetch url maxRetries);;
             mret None
           else
             console_warn (MsgAttemptFailed attempt url);;
             delay (retryDelay * attempt);;
             fetchPage_from left' (attempt + 1) url)
  end.

(** [fetchPage(url)]; [None] is [null]. *)
Definition fetchPage (url : string) : M (option Response) :=
  fetchPage_from (Z.to_nat maxRetries) 1 url.

(** [cleanContent(html)] *)
Definition cleanContent (html : string) : string := trim (re_cleanContent P html).

(** [content && content.trim().length > 100], for the [content] that
    [$(selector).html()] returned. *)
Definition substantial (content : option string) : bool :=
  match content with
  | Some c => negb (String.eqb c "") && (100 <? String.length (trim c))%nat
  | None => false
  end.

(** A loop [for (const selector of selectors)] of [extractContent]: the
    content of the first selector that yields enough, cleaned. *)
Fixpoint firstSubstantial (dom : Dom P) (selectors : list string) : option string :=
  match selectors with
  | [] => None
  | selector :: rest =>
      let content := cheerio_html P selector dom in
      if substantial content then Some (cleanContent (default "" content))
      else firstSubstantial dom rest
  end.

(** The double quote. *)
Definition dq : string := String "034"%char EmptyString.

Definition unwantedElements : string :=
  "script, style, nav, footer, .sidebar, .navigation, .menu, .navbar, .header, .topbar, .search, .breadcrumb, .table-of-contents, .toc, .banner".

Definition unwantedIds : string :=
  "#navbar, #sidebar, #footer, #header, #navigation, #menu, #search-bar, #assistant-entry".

Definition mintlifySelectors : list string :=
  [ ".prose, .mdx-prose";
    "[data-content=" +:+ dq +:+ "true" +:+ dq +:+ "]";
    ".docs-content";
    ".main-content" ].

Definition nextraSelectors : list string :=
  [ "main article";
    ".nextra-content";
    ".nextra-body-full";
    "[data-nextra-content]";
    "main .container";
    "main" ].

Definition commonSelectors : list string :=
  [ "main";
    ".content";
    ".documentation";
    ".docs-content";
    ".markdown-body";
    "article";
    "#content";
    ".main-content";
    "[role=" +:+ dq +:+ "main" +:+ dq +:+ "]";
    ".prose" ].

(** The last resort of [extractContent]: the largest text block, else
    the body. *)
Definition largestTextBlock (dom : Dom P) : string :=
  let textBlocks :=
    List.filter
      (λ el, (200 <? String.length (trim (elem_text P dom el)))%nat &&
             (elem_find P dom el "nav, footer, sidebar" =? 0)%nat)
      (cheerio_get P "div, section, article" dom) in
  match textBlocks with
  | first :: others =>
      let largest :=
        fold_left
          (λ prev current,
             if (String.length (elem_text P dom prev) <?
                 String.length (elem_text P dom current))%nat
             then current else prev)
          others first in
      cleanContent (default "" (elem_html P dom largest))
  | [] => cleanContent (default "" (cheerio_html P "body" dom))
  end.

(** [extractContent($, url)] after its [preferMarkdown] test, on the
    document from which the unwanted elements have been removed. *)
Definition selectContent (config : SiteConfig) (host url : string) (dom : Dom P) : string :=
  let configured :=
    match contentSelector config with
    | Some selector =>
        if String.eqb selector "" then None else firstSubstantial dom [selector]
    | None => None
    end in
  let mintlify :=
    if includes host "mintlify" || includes url "docs."
    then firstSubstantial dom mintlifySelectors else None in
  let nextra :=
    if includes host "thegraph.com"
    then firstSubstantial dom nextraSelectors else None in
  match configured with
  | Some content => content
  | None =>
      match mintlify with
      | Some content => content
      | None =>
          match nextra with
          | Some content => content
          | None =>
              match firstSubstantial dom commonSelectors with
              | Some content => content
              | None => largestTextBlock dom
              end
          end
      end
  end.

(** [extractContent($, url)] with [$ = cheerio.load(html)]. *)
Definition extractContent (html url : string) : M string :=
  u ← new_URL url;
  let config := configOf (hostname u) in
  if preferMarkdown config then mret ""
  else
    let dom := cheerio_remove P unwantedIds
                 (cheerio_remove P unwantedElements (cheerio_load P html)) in
    mret (selectContent config (hostname u) url dom).

(** [links.add(l)] on a [Set] kept in insertion order. *)
Definition set_add (links : list string) (l : string) : list string :=
  if existsb (String.eqb l) links then links else links ++ [l].

(** The callback of [$('a[href]').each] in [findAndQueueLinks]. *)
Definition visitAnchor (currentUrl : string) (baseUrl : URL)
    (links : list string) (h : string) : list string :=
  if String.eqb h "" then links
  else match URL_resolve P h currentUrl with
       | None => links
       | Some linkUrl =>
           if negb (String.eqb (hostname linkUrl) (hostname baseUrl)) then links
           else if shouldSkipUrl (href linkUrl) then links
           else set_add links (href linkUrl)
       end.

(** The set [links] of [findAndQueueLinks] once the anchors are visited. *)
Definition collectLinks (html currentUrl : string) (baseUrl : URL) : list string :=
  fold_left (visitAnchor currentUrl baseUrl) (cheerio_hrefs P (cheerio_load P html)) [].

Definition push (e : FrontierEntry) (s : State) : State :=
  set_queue (queue s ++ [e]) s.

(** The loop [for (const link of links)] of [findAndQueueLinks]. *)
Fixpoint queueLinks (links : list string) (currentDepth : Z) : M unit :=
  match links with
  | [] => mret tt
  | link :: rest =>
      seen ← gets (λ s, bool_decide (link ∈ visited s));
      (if negb seen then modify (push (mkEntry link (currentDepth + 1)))
       else mret tt);;
      queueLinks rest currentDepth
  end.

(** [findAndQueueLinks($, currentUrl, baseUrl, currentDepth)] with
    [$ = cheerio.load(html)]. *)
Definition findAndQueueLinks (html currentUrl : string) (baseUrl : URL)
    (currentDepth : Z) : M unit :=
  queueLinks (collectLinks html currentUrl baseUrl) currentDepth.

(** [getFilePath(url, baseUrl, siteDir)]; [baseUrl] is not read. *)
Definition getFilePath (url : string) (baseUrl : URL) (siteDir : string) : M string :=
  urlObj ← new_URL url;
  mret (path_join P siteDir (safePath (pathname urlObj))).

(** [fs.pathExists(p)] *)
Definition pathExists (p : string) : M bool :=
  gets (λ s, bool_decide (p ∈ dom (files s)) || bool_decide (p ∈ dirs s)).

(** [fs.ensureDir(dir)] *)
Definition ensureDir (dir : string) : M unit :=
  modify (λ s, record (EvEnsureDir dir) (set_dirs ({[dir]} ∪ dirs s) s)).

(** [fs.writeFile(p, content, 'utf-8')] *)
Definition writeFile (p content : string) : M unit :=
  modify (λ s, record (EvWriteFile p content) (set_files (<[p:=content]> (files s)) s)).

(** [new Date().toISOString()] *)
Definition now : M string := λ s, (Ok (clock W (tick s)), next_tick s).

(** The metadata block of [saveMarkdown]. *)
Definition metadataHeader (sourceUrl downloadedAt : string) : string :=
  "---" +:+ nl +:+ "source_url: " +:+ sourceUrl +:+ nl +:+
  "downloaded_at: " +:+ downloadedAt +:+ nl +:+ "---" +:+ nl +:+ nl.

(** [saveMarkdown(markdown, filePath, sourceUrl)] *)
Definition saveMarkdown (markdown filePath sourceUrl : string) : M unit :=
  existing ← (if negb (force D) then pathExists filePath else mret false);
  if existing : bool then
    console_log (MsgSkippingExisting (path_basename P filePath))
  else
    content ← (if includeMetadata D
               then (t ← now; mret (metadataHeader sourceUrl t +:+ markdown))
               else mret markdown);
    ensureDir (path_dirname P filePath);;
    writeFile filePath content;;
    console_log (MsgSaved (path_basename P filePath)).

(** [downloadMarkdown(mdUrl, originalUrl, siteDir)] *)
Definition downloadMarkdown (mdUrl originalUrl siteDir : string) : M unit :=
  try_catch
    (response ← axios GetMarkdown mdUrl defaultStatus;
     let contentType := contentTypeOf response in
     let content := data response in
     let isActuallyHtml :=
       startsLikeHtml content || includes contentType "text/html" in
     if isActuallyHtml then
       console_log (MsgReturnedHtml mdUrl);;
       extractedContent ← extractContent content originalUrl;
       let markdown := turndown P extractedContent in
       base ← new_URL originalUrl;
       filePath ← getFilePath originalUrl base siteDir;
       saveMarkdown markdown filePath originalUrl
     else
       base ← new_URL originalUrl;
       filePath ← getFilePath originalUrl base siteDir;
       saveMarkdown content filePath mdUrl)
    (λ _, console_warn (MsgFailedToDownloadMarkdown mdUrl)).

(** The tail of [processPage] when no markdown version is used: the
    [preferMarkdown] skip, else the conversion of the fetched HTML. *)
Definition convertPage (html url : string) (baseUrl : URL) (siteDir : string)
    (config : SiteConfig) : M unit :=
  if preferMarkdown config then console_log MsgNoMarkdownSkipping
  else
    console_log MsgConverting;;
    content ← extractContent html url;
    let markdown := turndown P content in
    filePath ← getFilePath url baseUrl siteDir;
    saveMarkdown markdown filePath url.

(** [processPage(url, depth, baseUrl, siteDir)]. A candidate is used
    when it is truthy: not [null] and not the empty string. *)
Definition processPage (url : string) (depth : Z) (baseUrl : URL)
    (siteDir : string) : M unit :=
  modify (λ s, record (EvVisited url) (set_visited ({[url]} ∪ visited s) s));;
  console_log (MsgProcessing url depth);;
  delay 500;;
  response ← fetchPage url;
  match response with
  | None => mret tt
  | Some response =>
      let html := data response in
      (if depth <? maxDepth D
       then findAndQueueLinks html url baseUrl depth
       else mret tt);;
      let config := configOf (hostname baseUrl) in
      mdUrl ← checkForMarkdownVersion url;
      match mdUrl with
      | Some mdUrl =>
          if String.eqb mdUrl "" then convertPage html url baseUrl siteDir config
          else
            console_log (MsgFoundMarkdown mdUrl);;
            downloadMarkdown mdUrl url siteDir
      | None => convertPage html url baseUrl siteDir config
      end
  end.

(** One iteration of the [while] loop of [download], after
    [this.queue.shift()] has returned [e]. *)
Definition dequeued (e : FrontierEntry) (baseUrl : URL) (siteDir : string) : M unit :=
  seen ← gets (λ s, bool_decide (url e ∈ visited s));
  if seen || (maxDepth D <? depth e) then mret tt
  else
    try_catch (processPage (url e) (depth e) baseUrl siteDir)
              (λ _, console_warn (MsgFailedToProcess (url e))).

(** The [while] loop of [download]. Each iteration, and the last test
    of the queue, takes one unit of [fuel]; [None] when it runs out. *)
Fixpoint download_loop (fuel : nat) (baseUrl : URL) (siteDir : string)
    (s : State) : option (Result unit * State) :=
  match fuel with
  | O => None
  | S fuel' =>
      match queue s with
      | [] => Some (Ok tt, s)
      | e :: q =>
          match dequeued e baseUrl siteDir (set_queue q s) with
          | (Ok _, s') => download_loop fuel' baseUrl siteDir s'
          | (Throw err, s') => Some (Throw err, s')
          end
      end
  end.

(** [download(startUrl)] up to its loop. *)
Definition download_setup (startUrl : string) : M (URL * string) :=
  baseUrl ← new_URL startUrl;
  let siteName := getSiteName (hostname baseUrl) in
  let siteDir := path_join P (outputDir D) siteName in
  ensureDir siteDir;;
  modify (set_visited ∅);;
  modify (set_queue [mkEntry startUrl 0]);;
  console_log (MsgOutputDirectory siteDir);;
  mret (baseUrl, siteDir).

(** [download(startUrl)] *)
Definition download (fuel : nat) (startUrl : string) (s : State)
    : option (Result unit * State) :=
  match download_setup startUrl s with
  | (Ok (baseUrl, siteDir), s') => download_loop fuel baseUrl siteDir s'
  | (Throw err, s') => Some (Throw err, s')
  end.

End Crawler.

(** ** A small concrete environment

    Stand-ins for the libraries on which the crawler can be run: URLs of
    the form [https://host/path] without port, query or fragment, relative
    references that start with a slash, paths joined with a slash, and
    documents whose anchors are written [<a href='...'>], in which no
    selector but [body] matches, and whose body turndown and the
    replacements of [cleanContent] leave as they are (so it is for a body
    of plain text). The two regular expression tests of
    [isLikelyMarkdown] are reduced to a leading [#] and to the presence of
    [<]; no run below reaches them. *)

Module Fixture.

Fixpoint take_until (c : ascii) (s : string) : string :=
  match s with
  | EmptyString => EmptyString
  | String x s' => if Ascii.eqb x c then EmptyString else String x (take_until c s')
  end.

Fixpoint drop_until (c : ascii) (s : string) : string :=
  match s with
  | EmptyString => EmptyString
  | String x s' => if Ascii.eqb x c then s else drop_until c s'
  end.

Definition parse (s : string) : option URL :=
  match match_at ["https://"] s with
  | Some rest =>
      let host := take_until "/" rest in
      let p := drop_until "/" rest in
      let p := if String.eqb p "" then "/" else p in
      if String.eqb host "" then None
      else Some (mkURL host p ("https://" +:+ host +:+ p))
  | None => None
  end.

Definition resolve (h base : string) : option URL :=
  if startsWith h "/" then
    match parse base with
    | Some b => parse ("https://" +:+ hostname b +:+ h)
    | None => None
    end
  else parse h.

Definition join (a b : string) : string := a +:+ "/" +:+ b.

Fixpoint basename (p : string) : string :=
  match p with
  | EmptyString => EmptyString
  | String c p' => if includes p' "/" then basename p'
                   else if Ascii.eqb c "/" then p' else p
  end.

Definition dirname (p : string) : string :=
  substring 0 (String.length p - String.length (basename p) - 1) p.

Fixpoint hrefs (html : string) : list string :=
  match html with
  | EmptyString => []
  | String _ html' =>
      match match_at ["<a href='"] html with
      | Some rest => take_until "'" rest :: hrefs html'
      | None => hrefs html'
      end
  end.

Fixpoint after (tag s : string) : option string :=
  match match_at [tag] s with
  | Some rest => Some rest
  | None => match s with
            | EmptyString => None
            | String _ s' => after tag s'
            end
  end.

(** The text before the first occurrence of [tag]. *)
Fixpoint before (tag s : string) : string :=
  match match_at [tag] s with
  | Some _ => EmptyString
  | None => match s with
            | EmptyString => EmptyString
            | String c s' => String c (before tag s')
            end
  end.

(** [$('body').html()]; no other selector matches anything. *)
Definition html_of (selector html : string) : option string :=
  if String.eqb selector "body"
  then option_map (before "</body>") (after "<body>" html)
  else None.

Definition platform : Platform :=
  {| URL_parse := parse;
     URL_resolve := resolve;
     path_join := join;
     path_dirname := dirname;
     path_basename := basename;
     Dom := string;
     Elem := Empty_set;
     cheerio_load := λ html, html;
     cheerio_hrefs := hrefs;
     cheerio_remove := λ _ dom, dom;
     cheerio_html := html_of;
     cheerio_get := λ _ _, [];
     elem_text := λ _ el, match el with end;
     elem_find := λ _ el _, match el with end;
     elem_html := λ _ el, match el with end;
     turndown := λ s, s;
     re_markdownPatterns := λ s, startsWith s "#";
     re_htmlTags := λ s, includes s "<";
     re_cleanContent := λ s, s |}.

(** The state of a downloader that has just been constructed, on an
    empty disk. *)
Definition fresh : State := mkState ∅ [] ∅ ∅ 0 [].

Definition page (body : string) : option Response :=
  Some (mkResponse 200 (Some "text/html") body).

(** A three-page site: the root links to [/a] (twice) and to another
    host, [/a] links to [/b] and back to the root, [/b] links to
    [/a]. No markdown version exists anywhere. *)
Definition site (req : Request) (u : string) : option Response :=
  match req with
  | GetPage =>
      if String.eqb u "https://docs.example.com/" then
        page "<html><body>Home <a href='/a'>a</a> <a href='https://docs.example.com/a'>a</a> <a href='https://other.example.com/x'>x</a></body></html>"
      else if String.eqb u "https://docs.example.com/a" then
        page "<html><body>Page A <a href='/b'>b</a> <a href='/'>home</a> <a href='/changelog'>log</a></body></html>"
      else if String.eqb u "https://docs.example.com/b" then
        page "<html><body>Page B <a href='/a'>a</a></body></html>"
      else if String.eqb u "https://docs.example.com/changelog" then
        page "<html><body>Changes</body></html>"
      else None
  | _ => None
  end.

Definition world : World :=
  {| net := λ _, site; clock := λ _, "2024-01-15T10:30:00.000Z" |}.

Definition host : string := "docs.example.com".
Definition root : string := "https://docs.example.com/".
Definition page_a : string := "https://docs.example.com/a".
Definition page_b : string := "https://docs.example.com/b".
Definition changelog : string := "https://docs.example.com/changelog".
Definition guide : string := "https://docs.example.com/guide".
Definition guide_md : string := "https://docs.example.com/guide.md".
Definition siteDir : string := "downloads/docs_example_com".

(** The parsed [root]. *)
Definition rootURL : URL := mkURL host "/" root.

(** A downloader with depth 3 and output directory [downloads], with
    the given flags and the given configuration for [host], if any. *)
Definition downloader (force metadata : bool) (config : option SiteConfig) : Downloader :=
  newDocDownloader (Some 3) (Some "downloads") force metadata
    (match config with
     | Some c => {[ host := c ]}
     | None => ∅
     end).

Definition guide_html : string := "<html><body>Guide text of the page</body></html>".
Definition viewer_html : string := "<!DOCTYPE html><html><body>Viewer shell</body></html>".

(** A site whose page [guide] has a sibling [guide.md] that answers the
    HEAD probe and then serves the HTML shell of a viewer. *)
Definition viewer : World :=
  {| net := λ _ req u,
       match req with
       | GetPage => if String.eqb u guide then page guide_html else None
       | HeadProbe =>
           if String.eqb u guide_md then Some (mkResponse 200 None "") else None
       | GetMarkdown =>
           if String.eqb u guide_md then Some (mkResponse 200 None viewer_html)
           else None
       | RangeProbe => None
       end;
     clock := λ _, "2024-01-15T10:30:00.000Z" |}.

(** A site whose page [guide] has a native markdown source. *)
Definition native : World :=
  {| net := λ _ req u,
       match req with
       | GetPage => if String.eqb u guide then page guide_html else None
       | HeadProbe =>
           if String.eqb u guide_md
           then Some (mkResponse 200 (Some "text/markdown") "") else None
       | GetMarkdown =>
           if String.eqb u guide_md
           then Some (mkResponse 200 (Some "text/markdown") "# Guide") else None
       | RangeProbe => None
       end;
     clock := λ _, "2024-01-15T10:30:00.000Z" |}.

(** No request is ever answered. *)
Definition offline : World :=
  {| net := λ _ _ _, None; clock := λ _, "2024-01-15T10:30:00.000Z" |}.

End Fixture.

(** ** What the proofs observe of a crawl *)

Section Observations.

Context (P : Platform) (W : World) (D : Downloader).

(** The URLs whose processing the trace records, in order. *)
Fixpoint visits (tr : list Event) : list string :=
  match tr with
  | [] => []
  | EvVisited u :: tr' => u :: visits tr'
  | _ :: tr' => visits tr'
  end.

(** [m] relates every state to the state it leaves, by [R]. *)
Definition preserves (R : relation State) {A} (m : M A) : Prop :=
  ∀ s, R s (m s).2.

(** [aside s s']: from [s] to [s'] the visited set and the queue are the
    same, and the trace has grown by events none of which marks a URL as
    visited. *)
Definition aside (s s' : State) : Prop :=
  visited s' = visited s ∧ queue s' = queue s ∧
  ∃ tr, log s' = log s ++ tr ∧ visits tr = [].

Definition quiet (ev : Event) : Prop :=
  match ev with
  | EvVisited _ => False
  | _ => True
  end.

(** [grows d s s']: from [s] to [s'] the visited set is the same, the
    queue has grown at its end by entries of depth [d + 1], and by none
    unless [d] is below the maximum depth, and no URL was marked. *)
Definition grows (d : Z) (s s' : State) : Prop :=
  visited s' = visited s ∧
  (∃ ch, queue s' = queue s ++ ch ∧
         Forall (λ e, depth e = d + 1 ∧ d < maxDepth D) ch) ∧
  ∃ tr, log s' = log s ++ tr ∧ visits tr = [].

(** Something, a file or a directory, exists at [p]. *)
Definition exists_at (p : string) (s : State) : Prop :=
  p ∈ dom (files s) ∨ p ∈ dirs s.

(** What [saveMarkdown] writes: the markdown, after the metadata block
    in metadata mode. The time is read at interaction [t]. *)
Definition written (markdown sourceUrl : string) (t : nat) : string :=
  if includeMetadata D
  then metadataHeader sourceUrl (clock W t) +:+ markdown
  else markdown.

(** The state [saveMarkdown] leaves when it writes. *)
Definition after_write (markdown filePath sourceUrl : string) (s : State) : State :=
  let s0 := if includeMetadata D then next_tick s else s in
  let dir := path_dirname P filePath in
  let s1 := record (EvEnsureDir dir) (set_dirs ({[dir]} ∪ dirs s0) s0) in
  let content := written markdown sourceUrl (tick s) in
  let s2 := record (EvWriteFile filePath content)
                   (set_files (<[filePath:=content]> (files s1)) s1) in
  record (EvLog (MsgSaved (path_basename P filePath))) s2.

(** The state after a request for [u] has been issued. *)
Definition after_request (req : Request) (u : string) (s : State) : State :=
  next_tick (record (EvRequest req u) s).

(** The [t]-th interaction, as the request [req] for [u] validated by
    [v], yields a response. *)
Definition answers (t : nat) (req : Request) (u : string) (v : Z → bool)
    : option Response :=
  match net W t req u with
  | Some r => if v (status r) then Some r else None
  | None => None
  end.

(** The value of [extractContent] on [html] for the page [url], parsed
    as [u]. *)
Definition extracted (html url : string) (u : URL) : string :=
  let config := configOf D (hostname u) in
  if preferMarkdown config then ""
  else
    selectContent P config (hostname u) url
      (cheerio_remove P unwantedIds
         (cheerio_remove P unwantedElements (cheerio_load P html))).

(** The file of the page whose URL parses as [u]. *)
Definition fileOf (siteDir : string) (u : URL) : string :=
  path_join P siteDir (safePath (pathname u)).

(** The state in which [processPage] fetches the page. *)
Definition marked (url : string) (depth : Z) (s : State) : State :=
  record (EvDelay 500)
    (record (EvLog (MsgProcessing url depth))
       (record (EvVisited url) (set_visited ({[url]} ∪ visited s) s))).

(** The state after the link discovery of [processPage]. *)
Definition discovered (html url : string) (base : URL) (depth : Z) (s : State) : State :=
  if depth <? maxDepth D
  then (findAndQueueLinks P html url base depth s).2
  else s.

(** The trace of [k] failed attempts that are retried, the first of
    them being attempt number [attempt]. *)
Fixpoint failed_attempts (url : string) (k : nat) (attempt : Z) : list Event :=
  match k with
  | O => []
  | S k' =>
      EvRequest GetPage url :: EvWarn (MsgAttemptFailed attempt url) ::
      EvDelay (retryDelay * attempt) :: failed_attempts url k' (attempt + 1)
  end.

(** The state after the trace [tr], [n] interactions later. *)
Definition later (n : nat) (tr : list Event) (s : State) : State :=
  mkState (visited s) (queue s) (files s) (dirs s) (n + tick s) (log s ++ tr).

(** What a finished run that did not throw has left, seen through [f]. *)
Definition outcome {A} (f : State → A) (run : option (Result unit * State)) : option A :=
  match run with
  | Some (Ok _, s) => Some (f s)
  | _ => None
  end.

End Observations.

(** ** Path derivation, in the words of the specification *)

Module PathSpec.

(** A trailing slash is stripped. *)
Fixpoint strip_trailing_slash (p : string) : string :=
  match p with
  | EmptyString => EmptyString
  | String c EmptyString => if Ascii.eqb c "/" then EmptyString else p
  | String c p' => String c (strip_trailing_slash p')
  end.

(** The leading slash is stripped. *)
Definition strip_leading_slash (p : string) : string :=
  match p with
  | String "/" p' => p'
  | _ => p
  end.

(** One of the characters that are illegal in file names. *)
Definition illegal (c : ascii) : bool :=
  match c with
  | "<" | ">" | ":" | "034" | "|" | "?" | "*" => true
  | _ => false
  end%char.

(** Modelled after the specification of path derivation: an empty or
    [/] path becomes [/index], a trailing slash is stripped, [.md] is
    appended when absent, the leading slash is stripped, and each
    illegal character is replaced by an underscore. *)
Definition derivePath_spec (pathname : string) : string :=
  let p1 := match pathname with
            | "" | "/" => "/index"
            | _ => pathname
            end in
  let p2 := strip_trailing_slash p1 in
  let p3 := if endsWith p2 ".md" then p2 else p2 +:+ ".md" in
  let p4 := strip_leading_slash p3 in
  string_of_list_ascii
    (map (λ c, if illegal c then "_"%char else c) (list_ascii_of_string p4)).

End PathSpec.

Import PathSpec.

(** ** The header test of the probe, in the words of the specification *)

Module ProbeSpec.

(** Modelled after the specification of the HEAD case: the status is 200
    or 206, the content type is blank, [text/plain], a markdown MIME type
    or [application/octet-stream], and it is not [text/html]. *)
Definition headerRule_spec (status : Z) (contentType : string) : bool :=
  ((status =? 200) || (status =? 206)) &&
  (String.eqb contentType "" ||
   includes contentType "text/plain" ||
   includes contentType "markdown" ||
   includes contentType "application/octet-stream") &&
  negb (includes contentType "text/html").

End ProbeSpec.

Import ProbeSpec.

(** ** What the further properties observe *)

Section Footprint.

Context (P : Platform) (W : World) (D : Downloader).

(** The anchor with attribute [h] on the page at [currentUrl] contributes
    the link [l] to a crawl of the site of [baseUrl]: the attribute is not
    empty, it resolves against the page to a URL of the host of the site
    whose [href] no built-in pattern skips, and [l] is that [href]. *)
Definition contributes (currentUrl : string) (baseUrl : URL) (h l : string) : Prop :=
  h ≠ "" ∧
  ∃ linkUrl, URL_resolve P h currentUrl = Some linkUrl ∧
             hostname linkUrl = hostname baseUrl ∧
             shouldSkipUrl (href linkUrl) = false ∧
             href linkUrl = l.

(** The links of [links] that [s] has not visited, in order. *)
Definition unvisited (s : State) (links : list string) : list string :=
  List.filter (λ l, negb (bool_decide (l ∈ visited s))) links.

(** The frontier entries for [links], found on a page of depth [d]. *)
Definition entriesAt (d : Z) (links : list string) : list FrontierEntry :=
  map (λ l, mkEntry l (d + 1)) links.

End Footprint.

Section Effects.

Context (P : Platform) (W : World) (D : Downloader).

(** [q] is the file of the page at [page], when [page] is a URL. *)
Definition ownFile (siteDir page q : string) : Prop :=
  ∃ u, URL_parse P page = Some u ∧ q = fileOf P siteDir u.

(** The events that [processPage] causes after its first two: it marks no
    URL, announces no page, and writes only where [Wr] allows. *)
Definition routine (Wr : string → Prop) (ev : Event) : Prop :=
  match ev with
  | EvVisited _ => False
  | EvLog (MsgProcessing _ _) => False
  | EvWriteFile p _ => Wr p
  | _ => True
  end.

(** [effect V Q Wr s s']: starting with the visited set [V], the step
    from [s] to [s'] keeps the visited set, appends to the queue entries
    that satisfy [Q], leaves every file alone that [Wr] does not allow, and
    adds routine events to the trace. *)
Definition effect (V : gset string) (Q : FrontierEntry → Prop)
    (Wr : string → Prop) (s s' : State) : Prop :=
  visited s = V →
  visited s' = V ∧
  (∃ ch, queue s' = queue s ++ ch ∧ Forall Q ch) ∧
  (∀ q, ¬ Wr q → files s' !! q = files s !! q) ∧
  ∃ tr, log s' = log s ++ tr ∧ Forall (routine Wr) tr.

(** The entry [c] is one that link discovery on the page at [page], of
    depth [d], may push when the visited set is [V]. *)
Definition foundOn (page : string) (base : URL) (d : Z) (V : gset string)
    (c : FrontierEntry) : Prop :=
  depth c = d + 1 ∧ d < maxDepth D ∧ (url c ∉ V) ∧
  ∃ h, contributes P page base h (url c).

End Effects.

(** ** Runs *)

Section Runs.

Context (P : Platform) (D : Downloader).

(** The site directory of a run whose seed parses as [base]. *)
Definition siteDirOf (base : URL) : string :=
  path_join P (outputDir D) (getSiteName (hostname base)).

(** [u] is processed at depth [d] in the trace [tr]. *)
Definition processedAt (tr : list Event) (u : string) (d : Z) : Prop :=
  EvLog (MsgProcessing u d) ∈ tr.

(** Where the entries of a run on [startUrl] come from: the seed, at depth
    0, or a link, found on a page in [V], that resolves to the host of the
    seed and is not skipped. *)
Definition origin (startUrl : string) (base : URL) (V : gset string)
    (e : FrontierEntry) : Prop :=
  0 ≤ depth e ∧
  ((url e = startUrl ∧ depth e = 0) ∨
   ∃ page h, page ∈ V ∧ contributes P page base h (url e)).

End Runs.

(** ** The markdown probe *)

Section Probe.

Context (P : Platform) (W : World).

(** The response that the probe of the candidate [m] obtains when its
    HEAD request is interaction [t]: the response to the HEAD request, or,
    when that request fails, the response to the ranged GET request that
    follows it. *)
Definition probeResponse (t : nat) (m : string) : option Response :=
  match answers W t HeadProbe m defaultStatus with
  | Some r => Some r
  | None => answers W (S t) RangeProbe m defaultStatus
  end.

(** The candidate [m], probed from interaction [t] on, is returned. *)
Definition probeAccepts (t : nat) (m : string) : bool :=
  match probeResponse t m with
  | Some r => acceptsResponse P m r
  | None => false
  end.

(** The state after the probe of [m]. *)
Definition afterProbe (m : string) (s : State) : State :=
  match answers W (tick s) HeadProbe m defaultStatus with
  | Some _ => after_request HeadProbe m s
  | None => after_request RangeProbe m (after_request HeadProbe m s)
  end.

(** [ev] is a probe request for one of the candidates [cs]. *)
Definition probes (cs : list string) (ev : Event) : Prop :=
  ∃ m, m ∈ cs ∧ (ev = EvRequest HeadProbe m ∨ ev = EvRequest RangeProbe m).

(** From [s] to [s'] nothing has happened but probe requests for the
    candidates [cs], at most two for each. *)
Definition probing (cs : list string) (s s' : State) : Prop :=
  visited s' = visited s ∧ queue s' = queue s ∧
  files s' = files s ∧ dirs s' = dirs s ∧
  ∃ tr, log s' = log s ++ tr ∧ tick s' = (tick s + List.length tr)%nat ∧
        (List.length tr ≤ 2 * List.length cs)%nat ∧ Forall (probes cs) tr.

End Probe.

(** ** The order of a crawl *)

(** The depth at which an event reports a page as processed. *)
Definition depthOf (ev : Event) : option Z :=
  match ev with
  | EvLog (MsgProcessing _ d) => Some d
  | _ => None
  end.

(** The depths of the pages processed in a trace, in order. *)
Definition processedDepths (tr : list Event) : list Z := omap depthOf tr.

(** A queue of one level followed by the next: entries of depth [L],
    then entries of depth [L + 1]. *)
Definition banded (L : Z) (q : list FrontierEntry) : Prop :=
  ∃ q1 q2, q = q1 ++ q2 ∧
           Forall (λ e, depth e = L) q1 ∧ Forall (λ e, depth e = L + 1) q2.

(** The [textBlocks] of the last resort of [extractContent]. *)
Definition textBlocks (P : Platform) (dom : Dom P) : list (Elem P) :=
  List.filter
    (λ el, (200 <? String.length (trim (elem_text P dom el)))%nat &&
           (elem_find P dom el "nav, footer, sidebar" =? 0)%nat)
    (cheerio_get P "div, section, article" dom).

(** ** The order of the selectors *)


(** * Theorems *)

(** ** The pure helpers on examples *)

Example safePath_examples :
  safePath "/" = "index.md" ∧ safePath "" = "index.md" ∧
  safePath "/guide/" = "guide.md" ∧ safePath "/api/v1/users.md" = "api/v1/users.md" ∧
  safePath "/a:b/c*d" = "a_b/c_d.md".
Proof. repeat split. Qed.

Example getSiteName_example : getSiteName "www.docs.example.com" = "docs_example_com".
Proof. reflexivity. Qed.

Example shouldSkipUrl_examples :
  shouldSkipUrl "https://h/manual.PDF" = true ∧
  shouldSkipUrl "https://h/guide#install" = true ∧
  shouldSkipUrl "https://h/api/users" = true ∧
  shouldSkipUrl "https://h/guide" = false.
Proof. repeat split. Qed.

Example possibleMdUrls_example :
  possibleMdUrls "https://h/docs/intro.html" =
  [ "https://h/docs/intro.html.md";
    "https://h/docs/intro.html/index.md";
    "https://h/docs/intro.html/README.md";
    "https://h/docs/intro.html/content.md";
    "https://h/docs/intro.md";
    "https://h/docs/intro.html.md";
    "https://h/docs/intro.html/index.md";
    "https://h/docs/intro.html";
    "https://h/docs/intro.html";
    "https://h/docs/intro.html.md";
    "https://h/docs/intro.html.md" ].
Proof. reflexivity. Qed.

(** ** Reasoning about the monad *)

Lemma visits_app (tr1 tr2 : list Event) :
  visits (tr1 ++ tr2) = visits tr1 ++ visits tr2.
Proof.
  induction tr1 as [|ev tr1 IH]; [reflexivity|].
  destruct ev; simpl; rewrite IH; reflexivity.
Qed.

Section Preserves.

Context (R : relation State) `{!PreOrder R}.

Lemma preserves_mret {A} (a : A) : preserves R (mret a).
Proof. intros s. reflexivity. Qed.

Lemma preserves_throw {A} (e : string) : preserves R (@throw A e).
Proof. intros s. reflexivity. Qed.

Lemma preserves_gets {A} (f : State → A) : preserves R (gets f).
Proof. intros s. reflexivity. Qed.

Lemma preserves_orThrow {A} (e : string) (o : option A) : preserves R (orThrow e o).
Proof. destruct o; [apply preserves_mret | apply preserves_throw]. Qed.

Lemma preserves_bind {A B} (m : M A) (f : A → M B) :
  preserves R m → (∀ a, preserves R (f a)) → preserves R (m ≫= f).
Proof.
  intros Hm Hf s. unfold mbind, M_bind.
  specialize (Hm s). destruct (m s) as [[a|e] s1]; simpl in *; [|exact Hm].
  transitivity s1; [exact Hm | apply Hf].
Qed.

Lemma preserves_try_catch {A} (m : M A) (h : string → M A) :
  preserves R m → (∀ e, preserves R (h e)) → preserves R (try_catch m h).
Proof.
  intros Hm Hh s. unfold try_catch.
  specialize (Hm s). destruct (m s) as [[a|e] s1]; simpl in *; [exact Hm|].
  transitivity s1; [exact Hm | apply Hh].
Qed.

Lemma preserves_modify (f : State → State) :
  (∀ s, R s (f s)) → preserves R (modify f).
Proof. intros Hf s. apply Hf. Qed.

End Preserves.

Lemma preserves_weaken (R R' : relation State) {A} (m : M A) :
  (∀ s s', R s s' → R' s s') → preserves R m → preserves R' m.
Proof. intros HR Hm s. apply HR, Hm. Qed.

Create HintDb frame.

(** Walks through the structure of a method. *)
Ltac frame_step :=
  lazymatch goal with
  | |- preserves _ (mret _) => apply preserves_mret; try typeclasses eauto
  | |- preserves _ (throw _) => apply preserves_throw; try typeclasses eauto
  | |- preserves _ (gets _) => apply preserves_gets; try typeclasses eauto
  | |- preserves _ (orThrow _ _) => apply preserves_orThrow; try typeclasses eauto
  | |- preserves _ (_ ≫= _) =>
      apply preserves_bind; [try typeclasses eauto | | intros ?]
  | |- preserves _ (try_catch _ _) =>
      apply preserves_try_catch; [try typeclasses eauto | | intros ?]
  | |- preserves _ (if ?b then _ else _) => destruct b eqn:?
  | |- preserves _ (match ?x with _ => _ end) => destruct x eqn:?
  | |- _ => solve [eauto with frame]
  end.

Ltac frame := lazy beta zeta; repeat frame_step.

(** *** Methods that leave the bookkeeping of the crawl alone *)

#[global] Instance aside_preorder : PreOrder aside.
Proof.
  split.
  - intros s. repeat split. exists []. by rewrite app_nil_r.
  - intros s1 s2 s3 (Hv1 & Hq1 & tr1 & Hl1 & Ht1) (Hv2 & Hq2 & tr2 & Hl2 & Ht2).
    repeat split; [congruence | congruence |].
    exists (tr1 ++ tr2). rewrite Hl2, Hl1, <- app_assoc, visits_app, Ht1, Ht2. done.
Qed.

Lemma aside_record (ev : Event) (s : State) : quiet ev → aside s (record ev s).
Proof.
  intros Hq. repeat split. exists [ev]. split; [done|].
  destruct ev; simpl in *; done.
Qed.

Lemma aside_next_tick (s : State) : aside s (next_tick s).
Proof. repeat split. exists []. by rewrite app_nil_r. Qed.

Lemma aside_set_files f (s : State) : aside s (set_files f s).
Proof. repeat split. exists []. by rewrite app_nil_r. Qed.

Lemma aside_set_dirs d (s : State) : aside s (set_dirs d s).
Proof. repeat split. exists []. by rewrite app_nil_r. Qed.

Section Aside.

Context (P : Platform) (W : World) (D : Downloader).

Lemma aside_emit ev : quiet ev → preserves aside (emit ev).
Proof. intros Hq s. by apply aside_record. Qed.

Lemma aside_console_log m : preserves aside (console_log m).
Proof. by apply aside_emit. Qed.

Lemma aside_console_warn m : preserves aside (console_warn m).
Proof. by apply aside_emit. Qed.

Lemma aside_delay ms : preserves aside (delay ms).
Proof. by apply aside_emit. Qed.

Lemma aside_axios req u v : preserves aside (axios W req u v).
Proof.
  intros s. unfold axios.
  assert (aside s (next_tick (record (EvRequest req u) s))) as H.
  { etransitivity; [by apply (aside_record (EvRequest req u))|apply aside_next_tick]. }
  destruct (net W (tick s) req u) as [r|]; [destruct (v (status r))|]; exact H.
Qed.

Lemma aside_now : preserves aside (now W).
Proof. intros s. apply aside_next_tick. Qed.

Lemma aside_ensureDir d : preserves aside (ensureDir d).
Proof.
  intros s. unfold ensureDir, modify; simpl.
  etransitivity; [apply aside_set_dirs | by apply (aside_record (EvEnsureDir d))].
Qed.

Lemma aside_writeFile p c : preserves aside (writeFile p c).
Proof.
  intros s. unfold writeFile, modify; simpl.
  etransitivity; [apply aside_set_files | by apply (aside_record (EvWriteFile p c))].
Qed.

Hint Resolve aside_console_log aside_console_warn aside_delay aside_axios
  aside_now aside_ensureDir aside_writeFile : frame.

Lemma aside_new_URL u : preserves aside (new_URL P u).
Proof. unfold new_URL. frame. Qed.

Lemma aside_pathExists p : preserves aside (pathExists p).
Proof. unfold pathExists. frame. Qed.

Hint Resolve aside_new_URL aside_pathExists : frame.

Lemma aside_fetchPage_from left attempt u :
  preserves aside (fetchPage_from W left attempt u).
Proof.
  revert attempt. induction left as [|left IH]; intros attempt; simpl; frame.
Qed.

Lemma aside_fetchPage u : preserves aside (fetchPage W u).
Proof. apply aside_fetchPage_from. Qed.

Lemma aside_probe u : preserves aside (probe W u).
Proof. unfold probe. frame. Qed.

Hint Resolve aside_fetchPage aside_probe : frame.

Lemma aside_probeCandidates cs : preserves aside (probeCandidates P W cs).
Proof. induction cs as [|c cs IH]; simpl; frame. Qed.

Hint Resolve aside_probeCandidates : frame.

Lemma aside_checkForMarkdownVersion u :
  preserves aside (checkForMarkdownVersion P W u).
Proof. unfold checkForMarkdownVersion. frame. Qed.

Lemma aside_extractContent html u : preserves aside (extractContent P D html u).
Proof. unfold extractContent. frame. Qed.

Lemma aside_getFilePath u b d : preserves aside (getFilePath P u b d).
Proof. unfold getFilePath. frame. Qed.

Hint Resolve aside_checkForMarkdownVersion aside_extractContent
  aside_getFilePath : frame.

Lemma aside_saveMarkdown md p src : preserves aside (saveMarkdown P W D md p src).
Proof. unfold saveMarkdown. frame. Qed.

Hint Resolve aside_saveMarkdown : frame.

Lemma aside_downloadMarkdown m u d : preserves aside (downloadMarkdown P W D m u d).
Proof. unfold downloadMarkdown. frame. Qed.

Lemma aside_convertPage html u b d c : preserves aside (convertPage P W D html u b d c).
Proof. unfold convertPage. frame. Qed.

End Aside.

#[global] Hint Resolve aside_console_log aside_console_warn aside_delay aside_axios
  aside_now aside_ensureDir aside_writeFile aside_new_URL aside_pathExists
  aside_fetchPage aside_probe aside_probeCandidates aside_checkForMarkdownVersion
  aside_extractContent aside_getFilePath aside_saveMarkdown
  aside_downloadMarkdown aside_convertPage : frame.

(** *** What processing a page does to the bookkeeping *)

Section Bookkeeping.

Context (P : Platform) (W : World) (D : Downloader).

#[local] Instance grows_preorder d : PreOrder (grows D d).
Proof.
  split.
  - intros s. split; [done|]. split.
    + exists []. by rewrite app_nil_r.
    + exists []. by rewrite app_nil_r.
  - intros s1 s2 s3 (Hv1 & (c1 & Hq1 & Hc1) & tr1 & Hl1 & Ht1)
                    (Hv2 & (c2 & Hq2 & Hc2) & tr2 & Hl2 & Ht2).
    split; [congruence|]. split.
    + exists (c1 ++ c2). rewrite Hq2, Hq1, <- app_assoc. split; [done|].
      by apply Forall_app.
    + exists (tr1 ++ tr2).
      rewrite Hl2, Hl1, <- app_assoc, visits_app, Ht1, Ht2. done.
Qed.

Lemma aside_grows d s s' : aside s s' → grows D d s s'.
Proof.
  intros (Hv & Hq & Htr). split; [done|]. split; [|done].
  exists []. rewrite app_nil_r. done.
Qed.

Lemma grows_of_aside d {A} (m : M A) : preserves aside m → preserves (grows D d) m.
Proof. apply preserves_weaken, aside_grows. Qed.

Lemma grows_queueLinks links d :
  d < maxDepth D → preserves (grows D d) (queueLinks links d).
Proof.
  intros Hd. induction links as [|l links IH]; simpl; frame.
  apply preserves_modify. intros s.
  split; [done|]. split.
  - exists [mkEntry l (d + 1)]. split; [done|]. by constructor.
  - exists []. by rewrite app_nil_r.
Qed.

Lemma grows_findAndQueueLinks html u b d :
  d < maxDepth D → preserves (grows D d) (findAndQueueLinks P html u b d).
Proof. intros Hd. by apply grows_queueLinks. Qed.

(** Everything [processPage] does after marking the URL. *)
Lemma processPage_effect url d base dir s :
  let s' := (processPage P W D url d base dir s).2 in
  visited s' = {[url]} ∪ visited s ∧
  (∃ ch, queue s' = queue s ++ ch ∧
         Forall (λ e, depth e = d + 1 ∧ d < maxDepth D) ch) ∧
  ∃ tr, log s' = log s ++ EvVisited url :: tr ∧ visits tr = [].
Proof.
  unfold processPage.
  match goal with
  | |- context [modify ?f ≫= ?k] =>
      set (mark := f); set (rest := k);
      assert (preserves (grows D d) (rest tt)) as Hrest
  end.
  { subst rest. frame; try solve [apply grows_of_aside; eauto with frame].
    apply grows_findAndQueueLinks. by apply Z.ltb_lt. }
  specialize (Hrest (mark s)).
  change ((modify mark ≫= rest) s) with (rest tt (mark s)).
  destruct Hrest as (Hv & (ch & Hq & Hch) & tr & Hl & Htr).
  simpl. split; [by rewrite Hv|]. split.
  - exists ch. by rewrite Hq.
  - exists tr. rewrite Hl. simpl. by rewrite <- app_assoc.
Qed.

(** An iteration of the loop never throws: whatever [processPage]
    throws is caught. *)
Lemma dequeued_ok e base dir s : (dequeued P W D e base dir s).1 = Ok tt.
Proof.
  unfold dequeued, mbind, M_bind, gets, try_catch. simpl.
  destruct (orb _ _); [done|].
  destruct (processPage P W D (url e) (depth e) base dir s) as [[[]|err] s1]; done.
Qed.

(** The two outcomes of an iteration: the entry is dropped and nothing
    changes, or the page is processed. *)
Lemma dequeued_effect e base dir s :
  let s' := (dequeued P W D e base dir s).2 in
  ((url e ∈ visited s ∨ maxDepth D < depth e) ∧ s' = s) ∨
  ((url e ∉ visited s) ∧ depth e ≤ maxDepth D ∧
   visited s' = {[url e]} ∪ visited s ∧
   (∃ ch, queue s' = queue s ++ ch ∧
          Forall (λ c, depth c = depth e + 1 ∧ depth e < maxDepth D) ch) ∧
   ∃ tr, log s' = log s ++ EvVisited (url e) :: tr ∧ visits tr = []).
Proof.
  unfold dequeued, mbind, M_bind, gets, try_catch. simpl.
  destruct (bool_decide (url e ∈ visited s)) eqn:Hseen; simpl.
  { left. apply bool_decide_eq_true in Hseen. auto. }
  apply bool_decide_eq_false in Hseen.
  destruct (maxDepth D <? depth e) eqn:Hdeep; simpl.
  { left. apply Z.ltb_lt in Hdeep. auto. }
  apply Z.ltb_ge in Hdeep. right.
  pose proof (processPage_effect (url e) (depth e) base dir s) as Heff.
  destruct (processPage P W D (url e) (depth e) base dir s) as [[[]|err] s1];
    simpl in *.
  { repeat split; try done; apply Heff. }
  destruct Heff as (Hv & (ch & Hq & Hch) & tr & Hl & Htr).
  repeat split; try done.
  - exists ch. done.
  - exists (tr ++ [EvWarn (MsgFailedToProcess (url e))]).
    rewrite Hl, visits_app, Htr. simpl. by rewrite <- app_assoc.
Qed.

End Bookkeeping.

(** *** The loop of [download] *)

Section Loop.

Context (P : Platform) (W : World) (D : Downloader).

(** An iteration pops the head of the queue and runs [dequeued]. *)
Lemma download_loop_step fuel base dir s e q :
  queue s = e :: q →
  download_loop P W D (S fuel) base dir s =
  download_loop P W D fuel base dir (dequeued P W D e base dir (set_queue q s)).2.
Proof.
  intros Hq. simpl. rewrite Hq.
  pose proof (dequeued_ok P W D e base dir (set_queue q s)) as Hok.
  destruct (dequeued P W D e base dir (set_queue q s)) as [[[]|err] s1];
    simpl in *; [done | discriminate].
Qed.

Lemma download_loop_done fuel base dir s :
  queue s = [] → download_loop P W D (S fuel) base dir s = Some (Ok tt, s).
Proof. intros Hq. simpl. by rewrite Hq. Qed.

(** One level of the breadth-first traversal: once the entries [q1] at
    the front of the queue, all of depth at least [L], have been
    dequeued, what was behind them is followed by entries of depth
    between [L + 1] and the maximum depth. *)
Lemma download_loop_level base dir L q1 :
  ∀ q2 s,
    queue s = q1 ++ q2 →
    Forall (λ e, L ≤ depth e) q1 →
    ∃ s' q3,
      queue s' = q2 ++ q3 ∧
      Forall (λ e, L + 1 ≤ depth e ≤ maxDepth D) q3 ∧
      ∀ n, download_loop P W D (List.length q1 + n) base dir s =
           download_loop P W D n base dir s'.
Proof.
  induction q1 as [|e q1 IH]; intros q2 s Hq Hall.
  { exists s, []. rewrite app_nil_r. auto. }
  apply Forall_cons in Hall as [He Hall].
  set (s1 := (dequeued P W D e base dir (set_queue (q1 ++ q2) s)).2).
  assert (∃ ch, queue s1 = q1 ++ (q2 ++ ch) ∧
                Forall (λ c, L + 1 ≤ depth c ≤ maxDepth D) ch) as (ch & Hq1 & Hch).
  { destruct (dequeued_effect P W D e base dir (set_queue (q1 ++ q2) s))
      as [[_ Heq]|(_ & _ & _ & (ch & Hch & Hdepth) & _)]; fold s1 in Heq || fold s1 in Hch.
    - exists []. rewrite Heq, app_nil_r. auto.
    - exists ch. simpl in Hch. rewrite Hch, <- app_assoc. split; [done|].
      eapply Forall_impl; [exact Hdepth|]. simpl. intros c [-> Hlt]. lia. }
  destruct (IH (q2 ++ ch) s1 Hq1 Hall) as (s' & q3 & Hq' & Hq3 & Hrun).
  exists s', (ch ++ q3). split; [by rewrite Hq', <- app_assoc|].
  split; [by apply Forall_app|].
  intros n. simpl List.length. rewrite <- Hrun.
  apply (download_loop_step (List.length q1 + n) base dir s e (q1 ++ q2) Hq).
Qed.

(** The loop empties the queue: by induction on the number of levels
    that are left below the maximum depth. *)
Lemma download_loop_exhausts base dir (k : nat) :
  ∀ L s,
    maxDepth D - L ≤ Z.of_nat k →
    Forall (λ e, L ≤ depth e) (queue s) →
    ∃ fuel s', download_loop P W D fuel base dir s = Some (Ok tt, s') ∧ queue s' = [].
Proof.
  induction k as [|k IH]; intros L s Hk Hall.
  - destruct (download_loop_level base dir L (queue s) [] s) as (s' & q3 & Hq' & Hq3 & Hrun);
      [by rewrite app_nil_r | done |].
    assert (q3 = []) as ->.
    { destruct q3 as [|c q3]; [done|]. apply Forall_cons in Hq3 as [Hc _]. lia. }
    exists (List.length (queue s) + 1)%nat, s'. rewrite Hrun. split; [|done].
    by apply download_loop_done.
  - destruct (download_loop_level base dir L (queue s) [] s) as (s1 & q3 & Hq1 & Hq3 & Hrun);
      [by rewrite app_nil_r | done |].
    destruct (IH (L + 1) s1) as (fuel & s' & Hloop & Hq'); [lia | |].
    { rewrite Hq1. simpl. eapply Forall_impl; [exact Hq3|]. simpl. lia. }
    exists (List.length (queue s) + fuel)%nat, s'. by rewrite Hrun.
Qed.

(** What a finished loop has done to the visited set and to the trace. *)
Lemma download_loop_visits base dir fuel :
  ∀ s r s',
    download_loop P W D fuel base dir s = Some (r, s') →
    visited s ⊆ visited s' ∧
    ∃ tr, log s' = log s ++ tr ∧ NoDup (visits tr) ∧
          ∀ u, u ∈ visits tr ↔ u ∈ visited s' ∧ (u ∉ visited s).
Proof.
  induction fuel as [|fuel IH]; intros s r s' Hrun; [discriminate|].
  destruct (queue s) as [|e q] eqn:Hq.
  { rewrite download_loop_done in Hrun by done. injection Hrun as <- <-.
    split; [done|]. exists []. rewrite app_nil_r. split; [done|].
    split; [constructor|]. intros u. simpl. set_solver. }
  rewrite (download_loop_step fuel base dir s e q Hq) in Hrun.
  apply IH in Hrun as (Hsub & tr2 & Hl2 & Hnd & Hin).
  destruct (dequeued_effect P W D e base dir (set_queue q s))
    as [[_ Heq]|(Hnew & _ & Hv & _ & tr1 & Hl1 & Htr1)].
  - rewrite Heq in *. simpl in *. split; [done|]. exists tr2. done.
  - rewrite Hv, Hl1 in *. simpl in *. split; [set_solver|].
    exists (EvVisited (url e) :: tr1 ++ tr2).
    split; [by rewrite Hl2, <- app_assoc|].
    simpl. rewrite visits_app, Htr1. simpl. split.
    + constructor; [|done]. rewrite Hin. set_solver.
    + intros u. rewrite elem_of_cons, Hin. split.
      * intros [->|[? ?]]; set_solver.
      * intros [Hu Hnu]. destruct (decide (u = url e)); [auto|]. right. set_solver.
Qed.

End Loop.

(** ** Writing a page: [saveMarkdown] *)

Section Writer.

Context (P : Platform) (W : World) (D : Downloader).

Lemma pathExists_spec p s :
  pathExists p s = (Ok (bool_decide (exists_at p s)), s).
Proof.
  unfold pathExists, gets, exists_at. f_equal. f_equal.
  destruct (bool_decide (p ∈ dom (files s))) eqn:H1;
    destruct (bool_decide (p ∈ dirs s)) eqn:H2; simpl; symmetry;
    try (apply bool_decide_eq_true; apply bool_decide_eq_true in H1 || apply bool_decide_eq_true in H2; tauto).
  apply bool_decide_eq_false. apply bool_decide_eq_false in H1, H2. tauto.
Qed.

Lemma saveMarkdown_skips markdown filePath sourceUrl s :
  force D = false → exists_at filePath s →
  saveMarkdown P W D markdown filePath sourceUrl s =
  (Ok tt, record (EvLog (MsgSkippingExisting (path_basename P filePath))) s).
Proof.
  intros Hf He. unfold saveMarkdown, mbind, M_bind. rewrite Hf. cbn [negb].
  rewrite pathExists_spec, bool_decide_eq_true_2 by done. reflexivity.
Qed.

Lemma saveMarkdown_writes markdown filePath sourceUrl s :
  force D = true ∨ ¬ exists_at filePath s →
  saveMarkdown P W D markdown filePath sourceUrl s =
  (Ok tt, after_write P W D markdown filePath sourceUrl s).
Proof.
  intros Hw. unfold saveMarkdown, mbind, M_bind, after_write, written.
  assert ((if negb (force D) then pathExists filePath else mret false) s
          = (Ok false, s)) as ->.
  { destruct (force D); [reflexivity|]. cbn [negb]. rewrite pathExists_spec.
    destruct Hw as [?|Hw]; [done|]. by rewrite bool_decide_eq_false_2. }
  destruct (includeMetadata D); reflexivity.
Qed.

End Writer.

(** ** Running the monad step by step *)

Lemma bind_ok {A B} (m : M A) (f : A → M B) s a s1 :
  m s = (Ok a, s1) → (m ≫= f) s = f a s1.
Proof. intros H. unfold mbind, M_bind. by rewrite H. Qed.

Lemma bind_throw {A B} (m : M A) (f : A → M B) s e s1 :
  m s = (Throw e, s1) → (m ≫= f) s = (Throw e, s1).
Proof. intros H. unfold mbind, M_bind. by rewrite H. Qed.

Lemma try_ok {A} (m : M A) (h : string → M A) s a s1 :
  m s = (Ok a, s1) → try_catch m h s = (Ok a, s1).
Proof. intros H. unfold try_catch. by rewrite H. Qed.

Lemma try_throw {A} (m : M A) (h : string → M A) s e s1 :
  m s = (Throw e, s1) → try_catch m h s = h e s1.
Proof. intros H. unfold try_catch. by rewrite H. Qed.

Lemma try_returns {A} (m : M A) (h : string → M A) s a :
  (m s).1 = Ok a → try_catch m h s = m s.
Proof. unfold try_catch. destruct (m s) as [[a'|e] s1]; [done|discriminate]. Qed.

(** ** Acquiring the content of a page *)

Section Acquisition.

Context (P : Platform) (W : World) (D : Downloader).

Lemma axios_ok req u v s r :
  answers W (tick s) req u v = Some r →
  axios W req u v s = (Ok r, after_request req u s).
Proof.
  unfold answers, axios, after_request.
  destruct (net W (tick s) req u) as [r'|]; [|done].
  destruct (v (status r')); [|done]. by intros [= ->].
Qed.

Lemma axios_rejects req u v s :
  answers W (tick s) req u v = None →
  ∃ e, axios W req u v s = (Throw e, after_request req u s).
Proof.
  unfold answers, axios, after_request.
  destruct (net W (tick s) req u) as [r'|]; [|by eauto].
  destruct (v (status r')); [done|by eauto].
Qed.

Lemma new_URL_ok url u s : URL_parse P url = Some u → new_URL P url s = (Ok u, s).
Proof. intros H. unfold new_URL. by rewrite H. Qed.

Lemma extractContent_ok html url u s :
  URL_parse P url = Some u →
  extractContent P D html url s = (Ok (extracted P D html url u), s).
Proof.
  intros H. unfold extractContent, extracted.
  rewrite (bind_ok _ _ _ _ _ (new_URL_ok url u s H)). lazy zeta.
  by destruct (preferMarkdown _).
Qed.

Lemma getFilePath_ok url base siteDir u s :
  URL_parse P url = Some u →
  getFilePath P url base siteDir s = (Ok (fileOf P siteDir u), s).
Proof.
  intros H. unfold getFilePath.
  by rewrite (bind_ok _ _ _ _ _ (new_URL_ok url u s H)).
Qed.

Lemma saveMarkdown_ok markdown filePath sourceUrl s :
  (saveMarkdown P W D markdown filePath sourceUrl s).1 = Ok tt.
Proof.
  destruct (force D) eqn:Hf.
  - rewrite saveMarkdown_writes; auto.
  - destruct (decide (exists_at filePath s)).
    + by rewrite saveMarkdown_skips.
    + rewrite saveMarkdown_writes; auto.
Qed.

(** The branch of [downloadMarkdown] for a candidate that serves HTML:
    the body of the candidate is extracted under the rules of the
    original URL, converted, and saved with the original URL as source. *)
Lemma downloadMarkdown_html mdUrl originalUrl siteDir s r u :
  answers W (tick s) GetMarkdown mdUrl defaultStatus = Some r →
  startsLikeHtml (data r) || includes (contentTypeOf r) "text/html" = true →
  URL_parse P originalUrl = Some u →
  downloadMarkdown P W D mdUrl originalUrl siteDir s =
  saveMarkdown P W D (turndown P (extracted P D (data r) originalUrl u))
    (fileOf P siteDir u) originalUrl
    (record (EvLog (MsgReturnedHtml mdUrl)) (after_request GetMarkdown mdUrl s)).
Proof.
  intros Hr Hhtml Hu. unfold downloadMarkdown.
  match goal with |- try_catch ?m ?h s = ?rhs =>
    assert (m s = rhs) as Hm end.
  { rewrite (bind_ok _ _ _ _ _ (axios_ok _ _ _ _ _ Hr)). lazy zeta. rewrite Hhtml.
    erewrite bind_ok by reflexivity.
    erewrite bind_ok by (by apply extractContent_ok).
    erewrite bind_ok by (by apply new_URL_ok).
    erewrite bind_ok by (by apply getFilePath_ok).
    reflexivity. }
  rewrite (try_returns _ _ _ tt); [exact Hm|].
  rewrite Hm. apply saveMarkdown_ok.
Qed.



Lemma queueLinks_ok links d s : (queueLinks links d s).1 = Ok tt.
Proof.
  revert s. induction links as [|l links IH]; intros s; [done|].
  simpl. unfold mbind, M_bind, gets. simpl.
  destruct (negb _); simpl; apply IH.
Qed.

(** [processPage] when a markdown version is found: the page is
    fetched, its links are queued, and [downloadMarkdown] takes over
    with the candidate and the URL of the page. *)
Lemma processPage_found url depth base siteDir s resp sA mdUrl sB :
  fetchPage W url (marked url depth s) = (Ok (Some resp), sA) →
  checkForMarkdownVersion P W url (discovered P D (data resp) url base depth sA)
    = (Ok (Some mdUrl), sB) →
  mdUrl ≠ "" →
  processPage P W D url depth base siteDir s =
  downloadMarkdown P W D mdUrl url siteDir (record (EvLog (MsgFoundMarkdown mdUrl)) sB).
Proof.
  intros Hfetch Hprobe Hne. unfold processPage.
  erewrite bind_ok by reflexivity.
  erewrite bind_ok by reflexivity.
  erewrite bind_ok by reflexivity.
  erewrite bind_ok by exact Hfetch. lazy beta match zeta.
  assert ((if depth <? maxDepth D
           then findAndQueueLinks P (data resp) url base depth
           else mret tt) sA = (Ok tt, discovered P D (data resp) url base depth sA)) as Hlinks.
  { unfold discovered. destruct (depth <? maxDepth D); [|done].
    pose proof (queueLinks_ok (collectLinks P (data resp) url base) depth sA) as Hok.
    unfold findAndQueueLinks.
    destruct (queueLinks _ _ _) as [[[]|] ?]; [done|discriminate]. }
  erewrite bind_ok by exact Hlinks. lazy zeta.
  erewrite bind_ok by exact Hprobe. lazy beta match zeta.
  apply String.eqb_neq in Hne. rewrite Hne.
  erewrite bind_ok by reflexivity. reflexivity.
Qed.

(** [processPage] when no markdown version is found and the site does
    not insist on markdown. *)
Lemma processPage_not_found url depth base siteDir s resp sA sB :
  fetchPage W url (marked url depth s) = (Ok (Some resp), sA) →
  checkForMarkdownVersion P W url (discovered P D (data resp) url base depth sA)
    = (Ok None, sB) →
  processPage P W D url depth base siteDir s =
  convertPage P W D (data resp) url base siteDir (configOf D (hostname base)) sB.
Proof.
  intros Hfetch Hprobe. unfold processPage.
  erewrite bind_ok by reflexivity.
  erewrite bind_ok by reflexivity.
  erewrite bind_ok by reflexivity.
  erewrite bind_ok by exact Hfetch. lazy beta match zeta.
  assert ((if depth <? maxDepth D
           then findAndQueueLinks P (data resp) url base depth
           else mret tt) sA = (Ok tt, discovered P D (data resp) url base depth sA)) as Hlinks.
  { unfold discovered. destruct (depth <? maxDepth D); [|done].
    pose proof (queueLinks_ok (collectLinks P (data resp) url base) depth sA) as Hok.
    unfold findAndQueueLinks.
    destruct (queueLinks _ _ _) as [[[]|] ?]; [done|discriminate]. }
  erewrite bind_ok by exact Hlinks. lazy zeta.
  erewrite bind_ok by exact Hprobe. reflexivity.
Qed.

End Acquisition.

(** ** Fetching a page: [fetchPage] *)

Section Fetch.

Context (P : Platform) (W : World) (D : Downloader).

Lemma fetchPage_from_success left attempt url s r :
  answers W (tick s) GetPage url pageStatus = Some r →
  fetchPage_from W (S left) attempt url s =
  (Ok (Some r), later 1 [EvRequest GetPage url] s).
Proof.
  intros Hr. simpl. erewrite try_ok; [reflexivity|].
  by rewrite (bind_ok _ _ _ _ _ (axios_ok W _ _ _ _ _ Hr)).
Qed.

Lemma fetchPage_from_failure left attempt url s :
  answers W (tick s) GetPage url pageStatus = None →
  fetchPage_from W (S left) attempt url s =
  if attempt =? maxRetries
  then (Ok None,
        later 1 [EvRequest GetPage url; EvWarn (MsgFailedToFetch url maxRetries)] s)
  else fetchPage_from W left (attempt + 1) url
         (later 1 (failed_attempts url 1 attempt) s).
Proof.
  intros Hr. destruct (axios_rejects W _ _ _ _ Hr) as [e He]. simpl.
  erewrite try_throw by (by apply bind_throw).
  destruct (attempt =? maxRetries).
  - erewrite bind_ok by reflexivity. unfold later, after_request, record, next_tick.
    simpl. by rewrite <- app_assoc.
  - erewrite bind_ok by reflexivity. erewrite bind_ok by reflexivity.
    unfold later, after_request, record, next_tick. simpl.
    by rewrite <- !app_assoc.
Qed.

Lemma later_later n1 tr1 n2 tr2 s :
  later n2 tr2 (later n1 tr1 s) = later (n2 + n1) (tr1 ++ tr2) s.
Proof. unfold later. simpl. f_equal; [lia | by rewrite app_assoc]. Qed.

(** The three attempts of [fetchPage] and what comes of them. *)
Lemma fetchPage_cases url s :
  let t := tick s in
  let try_at i := answers W (i + t) GetPage url pageStatus in
  fetchPage W url s =
  match try_at 0%nat, try_at 1%nat, try_at 2%nat with
  | Some r, _, _ =>
      (Ok (Some r), later 1 (failed_attempts url 0 1 ++ [EvRequest GetPage url]) s)
  | None, Some r, _ =>
      (Ok (Some r), later 2 (failed_attempts url 1 1 ++ [EvRequest GetPage url]) s)
  | None, None, Some r =>
      (Ok (Some r), later 3 (failed_attempts url 2 1 ++ [EvRequest GetPage url]) s)
  | None, None, None =>
      (Ok None, later 3 (failed_attempts url 2 1 ++
                         [EvRequest GetPage url; EvWarn (MsgFailedToFetch url 3)]) s)
  end.
Proof.
  intros t try_at. subst try_at t. unfold fetchPage.
  change (Z.to_nat maxRetries) with 3%nat.
  destruct (answers W (0 + tick s) GetPage url pageStatus) as [r0|] eqn:H0.
  { by rewrite (fetchPage_from_success _ _ _ _ _ H0). }
  rewrite (fetchPage_from_failure _ _ _ _ H0). change (1 =? maxRetries) with false.
  cbv iota.
  destruct (answers W (1 + tick s) GetPage url pageStatus) as [r1|] eqn:H1.
  { rewrite (fetchPage_from_success _ _ _ _ r1) by exact H1.
    by rewrite later_later. }
  rewrite (fetchPage_from_failure _ _ _ _) by exact H1.
  change (1 + 1 =? maxRetries) with false. cbv iota. rewrite later_later.
  destruct (answers W (2 + tick s) GetPage url pageStatus) as [r2|] eqn:H2.
  { rewrite (fetchPage_from_success _ _ _ _ r2) by exact H2.
    by rewrite later_later. }
  rewrite (fetchPage_from_failure _ _ _ _) by exact H2.
  change (1 + 1 + 1 =? maxRetries) with true. cbv iota.
  by rewrite later_later.
Qed.

End Fetch.

Lemma substring_all (s : string) : substring 0 (String.length s) s = s.
Proof. induction s as [|c s IH]; [done|]. simpl. by rewrite IH. Qed.

Lemma replace_suffix_unfold (needles : list string) (repl s : string) :
  replace_suffix needles repl s =
  if existsb (String.eqb s) needles then repl
  else match s with
       | EmptyString => EmptyString
       | String c s' => String c (replace_suffix needles repl s')
       end.
Proof. by destruct s. Qed.

Lemma replace_suffix_slash (p : string) :
  replace_suffix ["/"] "" p = strip_trailing_slash p.
Proof.
  induction p as [|c p IH]; [done|].
  rewrite replace_suffix_unfold. cbn [existsb]. rewrite orb_false_r, IH.
  destruct p as [|c' p].
  - destruct (Ascii.eqb c "/") eqn:Hc.
    + apply Ascii.eqb_eq in Hc as ->. reflexivity.
    + assert (String.eqb (String c "") "/" = false) as ->; [|simpl; by rewrite Hc].
      apply String.eqb_neq. intros [= ->]. by rewrite Ascii.eqb_refl in Hc.
  - assert (String.eqb (String c (String c' p)) "/" = false) as ->; [|reflexivity].
    apply String.eqb_neq. intros [= _ ?].
Qed.

Lemma prefix_slash (c : ascii) (p : string) :
  String.prefix "/" (String c p) = Ascii.eqb c "/".
Proof.
  change (String.prefix "/" (String c p))
    with (if ascii_dec "/" c then String.prefix "" p else false).
  destruct (ascii_dec "/" c) as [<-|Hne].
  - by destruct p.
  - symmetry. apply Ascii.eqb_neq. congruence.
Qed.

Lemma replace_prefix_slash (p : string) :
  replace_prefix "/" "" p = strip_leading_slash p.
Proof.
  destruct p as [|c p]; [done|].
  unfold replace_prefix, match_at. rewrite prefix_slash.
  destruct (Ascii.eqb c "/") eqn:Hc.
  - apply Ascii.eqb_eq in Hc as ->. simpl. rewrite Nat.sub_0_r. apply substring_all.
  - destruct c as [[] [] [] [] [] [] [] []]; try reflexivity. discriminate.
Qed.

Lemma replace_chars_unsafe (p : string) :
  replace_chars unsafeChars "_" p =
  string_of_list_ascii
    (map (λ c, if illegal c then "_"%char else c) (list_ascii_of_string p)).
Proof.
  induction p as [|c p IH]; [done|].
  simpl. rewrite <- IH. f_equal.
  destruct c as [[] [] [] [] [] [] [] []]; reflexivity.
Qed.

(** The clean-up of [getFilePath] does what the specification of path
    derivation says, step by step. *)
Lemma safePath_spec (pathname : string) : safePath pathname = derivePath_spec pathname.
Proof.
  unfold safePath, derivePath_spec.
  rewrite replace_chars_unsafe, replace_prefix_slash, replace_suffix_slash.
  assert ((if String.eqb pathname "/" || String.eqb pathname "" then "/index" else pathname)
          = match pathname with "" | "/" => "/index" | _ => pathname end) as ->.
  { destruct pathname as [|c [|c' p]]; try reflexivity;
      destruct c as [[] [] [] [] [] [] [] []]; reflexivity. }
  by destruct (endsWith _ ".md").
Qed.

(** ** Lemmas for the properties of the crawl *)

Lemma processPage_abandons P W D url depth base siteDir s sA :
  fetchPage W url (marked url depth s) = (Ok None, sA) →
  processPage P W D url depth base siteDir s = (Ok tt, sA).
Proof.
  intros Hfetch. unfold processPage.
  erewrite bind_ok by reflexivity.
  erewrite bind_ok by reflexivity.
  erewrite bind_ok by reflexivity.
  erewrite bind_ok by exact Hfetch. reflexivity.
Qed.

(** The guard of the loop as the code has it: an entry is dropped, and
    nothing at all happens, exactly when its URL is visited or its depth
    exceeds [this.maxDepth]. *)
Lemma dequeued_drops_iff P W D e base siteDir s :
  (dequeued P W D e base siteDir s).2 = s ↔
  url e ∈ visited s ∨ maxDepth D < depth e.
Proof.
  destruct (dequeued_effect P W D e base siteDir s)
    as [[Hd Heq]|(Hnv & Hle & _ & _ & tr & Hl & _)].
  - tauto.
  - split; [|intros [?|?]; [done|lia]].
    intros Heq. rewrite Heq in Hl. exfalso.
    apply (f_equal List.length) in Hl. rewrite length_app in Hl. simpl in Hl. lia.
Qed.

(** *** What [includes] means *)

Lemma append_cons (x : ascii) (a b : string) :
  String x a +:+ b = String x (a +:+ b).
Proof. reflexivity. Qed.

Lemma append_assoc (a b c : string) : (a +:+ b) +:+ c = a +:+ (b +:+ c).
Proof. induction a as [|x a IH]; [done|]. by rewrite !append_cons, IH. Qed.

Lemma prefix_app (p s : string) :
  String.prefix p s = true ↔ ∃ b, s = p +:+ b.
Proof.
  revert s. induction p as [|x p IH]; intros s.
  - split; [intros _; by exists s | intros _; by destruct s].
  - destruct s as [|y s].
    + split; [done | intros [b Hb]; discriminate].
    + change (String.prefix (String x p) (String y s))
        with (if ascii_dec x y then String.prefix p s else false).
      destruct (ascii_dec x y) as [->|Hne].
      * rewrite IH. split; intros [b Hb]; exists b; rewrite append_cons in *; congruence.
      * split; [done | intros [b Hb]; rewrite append_cons in Hb; congruence].
Qed.

Lemma includes_app (s p : string) :
  includes s p = true ↔ ∃ a b, s = a +:+ p +:+ b.
Proof.
  induction s as [|x s IH].
  - cbn [includes]. rewrite orb_false_r, prefix_app. split.
    + intros [b Hb]. by exists "", b.
    + intros (a & b & Hab). destruct a; [by exists b | discriminate].
  - cbn [includes]. rewrite orb_true_iff, prefix_app, IH. split.
    + intros [[b Hb]|(a & b & Hab)]; [by exists "", b|].
      exists (String x a), b. by rewrite append_cons, Hab.
    + intros (a & b & Hab). destruct a as [|y a]; [left; by exists b|].
      right. exists a, b. rewrite append_cons in Hab. congruence.
Qed.

(** A string that contains [q +:+ p] contains [p]. *)
Lemma includes_tail (s q p : string) :
  includes s (q +:+ p) = true → includes s p = true.
Proof.
  rewrite !includes_app. intros (a & b & ->).
  exists (a +:+ q), b. by rewrite !append_assoc.
Qed.

(** The run of [download] on a seed that parses, once the loop has done
    [fuel] iterations. *)
Lemma download_parsed P W D fuel startUrl base s :
  URL_parse P startUrl = Some base →
  let siteDir := path_join P (outputDir D) (getSiteName (hostname base)) in
  download P W D fuel startUrl s =
  download_loop P W D fuel base siteDir
    (mkState ∅ [mkEntry startUrl 0] (files s) ({[siteDir]} ∪ dirs s) (tick s)
       (log s ++ [EvEnsureDir siteDir; EvLog (MsgOutputDirectory siteDir)])).
Proof.
  intros Hu siteDir. unfold download, download_setup, new_URL. rewrite Hu.
  unfold mbind, M_bind. simpl. subst siteDir. f_equal.
  unfold record, set_queue, set_visited, set_dirs. simpl. by rewrite <- app_assoc.
Qed.

(** ** Properties of the crawl *)

(** C1: the entry [(b, 2)] of a run whose site configuration sets
    [maxDepth] to 1 under a global bound of 3. The claim has it discarded,
    since 2 exceeds the override; the loop compares with the global bound
    only, and processes it. *)
Theorem C1_site_maxDepth_not_consulted :
  let D := Fixture.downloader false false (Some (mkSiteConfig None None (Some 1) false)) in
  let run := download Fixture.platform Fixture.world D 5 Fixture.root Fixture.fresh in
  maxDepth D = 3 ∧
  cfg_maxDepth (configOf D Fixture.host) = Some 1 ∧
  outcome (λ s, visits (log s)) run =
    Some [Fixture.root; Fixture.page_a; Fixture.page_b; Fixture.changelog] ∧
  outcome (λ s, files s !! "downloads/docs_example_com/b.md") run
    = Some (Some "Page B <a href='/a'>a</a>") ∧
  (dequeued Fixture.platform Fixture.world D (mkEntry Fixture.page_b 2)
     Fixture.rootURL Fixture.siteDir Fixture.fresh).2 ≠ Fixture.fresh.
Proof.
  split; [reflexivity|]. split; [reflexivity|].
  split; [vm_compute; reflexivity|]. split; [vm_compute; reflexivity|].
  rewrite dequeued_drops_iff. simpl. intros [H|H]; [set_solver|lia].
Qed.

(** C2 as stated fails: the page [guide] has the candidate [guide.md],
    which serves the HTML shell of a viewer. What is saved for the page is
    the conversion of that shell, not the conversion of the HTML fetched
    from the URL of the page itself. *)
Lemma C2_viewer_shell_is_saved :
  let D := Fixture.downloader false false None in
  let u := mkURL Fixture.host "/guide" Fixture.guide in
  let sA := (fetchPage Fixture.viewer Fixture.guide (marked Fixture.guide 0 Fixture.fresh)).2 in
  let s' := (processPage Fixture.platform Fixture.viewer D Fixture.guide 0 u
               Fixture.siteDir Fixture.fresh).2 in
  answers Fixture.viewer 0 GetPage Fixture.guide pageStatus
    = Fixture.page Fixture.guide_html ∧
  (checkForMarkdownVersion Fixture.platform Fixture.viewer Fixture.guide
     (discovered Fixture.platform D Fixture.guide_html Fixture.guide u 0 sA)).1
    = Ok (Some Fixture.guide_md) ∧
  answers Fixture.viewer 2 GetMarkdown Fixture.guide_md defaultStatus
    = Some (mkResponse 200 None Fixture.viewer_html) ∧
  startsLikeHtml Fixture.viewer_html = true ∧
  files s' !! fileOf Fixture.platform Fixture.siteDir u = Some "Viewer shell" ∧
  turndown Fixture.platform
    (extracted Fixture.platform D Fixture.guide_html Fixture.guide u)
    = "Guide text of the page".
Proof. repeat split; vm_compute; reflexivity. Qed.

(** C2, amended: when the probe returns a candidate for a page and the
    body fetched from the candidate, trimmed, starts with an HTML doctype
    or html tag, the content saved for the page is the markdown conversion
    of the content extracted from that body, the HTML the candidate served,
    under the extraction rules of the URL of the page; it is not the raw
    body. (The file is written when force mode is on or nothing exists at
    its path; in metadata mode the metadata block precedes the content.) *)
Theorem C2_html_candidate_is_converted (P : Platform) (W : World) (D : Downloader)
    (url : string) (depth : Z) (base : URL) (siteDir : string) (s : State)
    (resp : Response) (sA : State) (mdUrl : string) (sB : State)
    (r : Response) (u : URL) :
  fetchPage W url (marked url depth s) = (Ok (Some resp), sA) →
  checkForMarkdownVersion P W url (discovered P D (data resp) url base depth sA)
    = (Ok (Some mdUrl), sB) →
  mdUrl ≠ "" →
  answers W (tick sB) GetMarkdown mdUrl defaultStatus = Some r →
  startsLikeHtml (data r) = true →
  URL_parse P url = Some u →
  force D = true ∨ ¬ exists_at (fileOf P siteDir u) sB →
  let s' := (processPage P W D url depth base siteDir s).2 in
  let markdown := turndown P (extracted P D (data r) url u) in
  files s' !! fileOf P siteDir u =
  Some (if includeMetadata D
        then metadataHeader url (clock W (S (tick sB))) +:+ markdown
        else markdown).
Proof.
  intros Hfetch Hprobe Hne Hr Hhtml Hu Hw s' markdown. subst s' markdown.
  rewrite (processPage_found P W D url depth base siteDir s resp sA mdUrl sB)
    by done.
  rewrite (downloadMarkdown_html P W D mdUrl url siteDir _ r u);
    [|exact Hr|by rewrite Hhtml|exact Hu].
  rewrite saveMarkdown_writes by exact Hw.
  unfold after_write, written. simpl. by rewrite lookup_insert_eq.
Qed.

(** The amended C2 on the page [guide] and its candidate [guide.md]. *)
Lemma C2_html_candidate_witness :
  let D := Fixture.downloader false false None in
  let u := mkURL Fixture.host "/guide" Fixture.guide in
  files (processPage Fixture.platform Fixture.viewer D Fixture.guide 0 u
           Fixture.siteDir Fixture.fresh).2 !! fileOf Fixture.platform Fixture.siteDir u
  = Some (turndown Fixture.platform
            (extracted Fixture.platform D Fixture.viewer_html Fixture.guide u)).
Proof.
  refine (C2_html_candidate_is_converted Fixture.platform Fixture.viewer
    (Fixture.downloader false false None) Fixture.guide 0
    (mkURL Fixture.host "/guide" Fixture.guide) Fixture.siteDir Fixture.fresh
    (mkResponse 200 (Some "text/html") Fixture.guide_html)
    (later 1 [EvRequest GetPage Fixture.guide] (marked Fixture.guide 0 Fixture.fresh))
    Fixture.guide_md
    (later 2 [EvRequest GetPage Fixture.guide; EvRequest HeadProbe Fixture.guide_md]
       (marked Fixture.guide 0 Fixture.fresh))
    (mkResponse 200 None Fixture.viewer_html)
    (mkURL Fixture.host "/guide" Fixture.guide) _ _ _ _ _ _ _).
  - vm_compute. reflexivity.
  - vm_compute. reflexivity.
  - discriminate.
  - reflexivity.
  - reflexivity.
  - reflexivity.
  - right. unfold exists_at. simpl. set_solver.
Defined.

(** C3: the link to [/changelog] on a page of a site whose configuration
    lists [/changelog] in [skipPatterns]. The claim has it never enqueued;
    link discovery tests the built-in patterns only, enqueues it, and the
    page is downloaded. *)
Theorem C3_site_skipPatterns_not_consulted :
  let D := Fixture.downloader false false
             (Some (mkSiteConfig None (Some ["/changelog"]) None false)) in
  let run := download Fixture.platform Fixture.world D 5 Fixture.root Fixture.fresh in
  let seen := set_visited {[Fixture.root; Fixture.page_a]} Fixture.fresh in
  skipPatterns (configOf D Fixture.host) = Some ["/changelog"] ∧
  includes Fixture.changelog "/changelog" = true ∧
  shouldSkipUrl Fixture.changelog = false ∧
  (∃ html, Fixture.site GetPage Fixture.page_a = Fixture.page html ∧
     findAndQueueLinks Fixture.platform html Fixture.page_a Fixture.rootURL 1 seen
     = (Ok tt, set_queue [mkEntry Fixture.page_b 2; mkEntry Fixture.changelog 2] seen)) ∧
  outcome (λ s, bool_decide (Fixture.changelog ∈ visited s)) run = Some true ∧
  outcome (λ s, files s !! "downloads/docs_example_com/changelog.md") run
    = Some (Some "Changes").
Proof.
  split; [reflexivity|]. split; [reflexivity|]. split; [reflexivity|].
  split; [|split; vm_compute; reflexivity].
  eexists. split; [reflexivity|]. vm_compute. reflexivity.
Qed.

(** C4 as stated fails: a HEAD response of type [application/json] for a
    candidate whose URL ends in [.md] is accepted, although its content
    type is none of those the claim lists. *)
Lemma C4_json_candidate_accepted :
  let r := mkResponse 200 (Some "application/json") "" in
  data r = "" ∧
  acceptsResponse Fixture.platform Fixture.guide_md r = true ∧
  headerRule_spec (status r) (contentTypeOf r) = false.
Proof. repeat split. Qed.

(** C4, amended: when only the headers of a candidate are available, it
    is accepted if and only if the status is 200 or 206, the content type
    is blank, contains [text/plain], [markdown] or
    [application/octet-stream], or the URL of the candidate ends in [.md],
    and the content type does not contain [text/html]. *)
Theorem C4_head_acceptance (P : Platform) (mdUrl : string) (r : Response) :
  data r = "" →
  acceptsResponse P mdUrl r = true ↔
  (status r = 200 ∨ status r = 206) ∧
  (contentTypeOf r = "" ∨
   includes (contentTypeOf r) "text/plain" = true ∨
   includes (contentTypeOf r) "markdown" = true ∨
   includes (contentTypeOf r) "application/octet-stream" = true ∨
   endsWith mdUrl ".md" = true) ∧
  includes (contentTypeOf r) "text/html" = false.
Proof.
  intros Hdata. unfold acceptsResponse, headersLookMarkdown. rewrite Hdata.
  change (negb (String.eqb "" "")) with false. cbv iota.
  generalize (contentTypeOf r). intros ct.
  destruct ((status r =? 200) || (status r =? 206)) eqn:Hst.
  - apply orb_true_iff in Hst. rewrite !Z.eqb_eq in Hst.
    rewrite andb_true_iff, !orb_true_iff, negb_true_iff, String.eqb_eq.
    split.
    + intros [Hm Hh]. split; [done|]. split; [|done].
      destruct Hm as [[[[[?|?]|Htm]|?]|?]|?]; auto.
      right. right. left. by apply (includes_tail ct "text/" "markdown").
    + intros (_ & Hm & Hh). split; [|done].
      destruct Hm as [?|[?|[?|[?|?]]]]; auto 10.
  - apply orb_false_iff in Hst as [H200 H206].
    apply Z.eqb_neq in H200, H206. split; [done|]. intros ([?|?] & _); done.
Qed.

(** The amended C4 at the response that refutes the claim as stated. *)
Lemma C4_head_acceptance_witness :
  acceptsResponse Fixture.platform Fixture.guide_md
    (mkResponse 200 (Some "application/json") "") = true ↔
  (200 = 200 ∨ 200 = 206) ∧
  ("application/json" = "" ∨
   includes "application/json" "text/plain" = true ∨
   includes "application/json" "markdown" = true ∨
   includes "application/json" "application/octet-stream" = true ∨
   endsWith Fixture.guide_md ".md" = true) ∧
  includes "application/json" "text/html" = false.
Proof.
  exact (C4_head_acceptance Fixture.platform Fixture.guide_md
           (mkResponse 200 (Some "application/json") "") eq_refl).
Defined.

(** C5: in the trace of a run no URL is processed twice, however often
    it was enqueued, and every URL processed is in the visited set at the
    end; [processPage] marks its URL before anything else, so that every
    request it issues comes later in the trace; and no iteration of the
    loop removes a URL from the visited set. *)
Theorem C5_visited_once (P : Platform) (W : World) (D : Downloader)
    (fuel : nat) (startUrl : string) (s : State) (r : Result unit) (s' : State) :
  download P W D fuel startUrl s = Some (r, s') →
  (∃ tr, log s' = log s ++ tr ∧ NoDup (visits tr) ∧
         ∀ u, u ∈ visits tr → u ∈ visited s') ∧
  (∀ url depth base siteDir s0,
     let s1 := (processPage P W D url depth base siteDir s0).2 in
     url ∈ visited s1 ∧
     ∃ tr, log s1 = log s0 ++ EvVisited url :: tr ∧ visits tr = []) ∧
  (∀ e base siteDir s0,
     visited s0 ⊆ visited (dequeued P W D e base siteDir s0).2).
Proof.
  intros Hrun. split; [|split].
  - unfold download in Hrun.
    destruct (download_setup P D startUrl s) as [[[base dir]|err] s0] eqn:Hsetup.
    + assert (∃ tr0, log s0 = log s ++ tr0 ∧ visits tr0 = []) as (tr0 & Hl0 & Ht0).
      { unfold download_setup, new_URL in Hsetup.
        destruct (URL_parse P startUrl) as [b|]; [|discriminate].
        injection Hsetup as _ _ <-. simpl. rewrite <- app_assoc. eauto. }
      apply download_loop_visits in Hrun as (_ & tr & Hl & Hnd & Hin).
      exists (tr0 ++ tr). rewrite Hl, Hl0, <- app_assoc, visits_app, Ht0. simpl.
      split; [done|]. split; [done|]. intros v Hv. by apply Hin in Hv as [? _].
    + injection Hrun as _ <-.
      unfold download_setup, new_URL in Hsetup.
      destruct (URL_parse P startUrl) as [b|]; [discriminate|].
      injection Hsetup as _ <-. exists []. rewrite app_nil_r.
      split; [done|]. split; [constructor|]. intros v Hv. by apply elem_of_nil in Hv.
  - intros url depth base siteDir s0 s1. subst s1.
    destruct (processPage_effect P W D url depth base siteDir s0) as (Hv & _ & Htr).
    split; [rewrite Hv; set_solver | exact Htr].
  - intros e base siteDir s0.
    destruct (dequeued_effect P W D e base siteDir s0) as [[_ ->]|(_ & _ & -> & _)];
      set_solver.
Qed.

(** C5 on the three-page site, whose pages link to each other in a
    cycle: no URL is processed twice. *)
Lemma C5_visited_once_witness :
  let run := download Fixture.platform Fixture.world
               (Fixture.downloader false false None) 5 Fixture.root Fixture.fresh in
  let s' := default Fixture.fresh (outcome id run) in
  ∃ tr, log s' = log Fixture.fresh ++ tr ∧ NoDup (visits tr) ∧
        ∀ u, u ∈ visits tr → u ∈ visited s'.
Proof.
  refine (proj1 (C5_visited_once Fixture.platform Fixture.world
    (Fixture.downloader false false None) 5 Fixture.root Fixture.fresh (Ok tt) _ _)).
  vm_compute. reflexivity.
Defined.

(** C6: the path of a page is a function of its URL alone: [getFilePath]
    reads neither the state nor [baseUrl] and changes nothing; it cleans
    the path name of the URL as the specification says (an empty or [/]
    path becomes [/index], a trailing slash is stripped, [.md] is appended
    when absent, the leading slash is stripped, the illegal characters
    become underscores); and two URLs whose path names are empty or [/],
    such as [https://h/] and [https://h], get the same path, [index.md]
    under the site directory. *)
Theorem C6_getFilePath_deterministic (P : Platform) (url1 url2 : string)
    (U1 U2 base1 base2 : URL) (siteDir : string) (s1 s2 : State) :
  URL_parse P url1 = Some U1 →
  URL_parse P url2 = Some U2 →
  getFilePath P url1 base1 siteDir s1
    = (Ok (path_join P siteDir (derivePath_spec (pathname U1))), s1) ∧
  (url1 = url2 →
   (getFilePath P url2 base2 siteDir s2).1 = (getFilePath P url1 base1 siteDir s1).1) ∧
  (pathname U1 ∈ ["/"; ""] → pathname U2 ∈ ["/"; ""] →
   (getFilePath P url1 base1 siteDir s1).1 = Ok (path_join P siteDir "index.md") ∧
   (getFilePath P url2 base2 siteDir s2).1 = Ok (path_join P siteDir "index.md")).
Proof.
  intros H1 H2.
  rewrite (getFilePath_ok P url1 base1 siteDir U1 s1 H1).
  rewrite (getFilePath_ok P url2 base2 siteDir U2 s2 H2).
  unfold fileOf. rewrite !safePath_spec. simpl. split; [done|]. split.
  - intros ->. rewrite H1 in H2. by injection H2 as ->.
  - intros Hp1 Hp2.
    assert (∀ p : string, p ∈ ["/"; ""] → derivePath_spec p = "index.md") as Hroot.
    { intros p Hp. apply elem_of_cons in Hp as [->|Hp]; [done|].
      apply elem_of_cons in Hp as [->|Hp]; [done|]. by apply elem_of_nil in Hp. }
    by rewrite !Hroot.
Qed.

(** C6 at [https://h/] and [https://h]. *)
Lemma C6_getFilePath_witness :
  (getFilePath Fixture.platform "https://h/" Fixture.rootURL "out" Fixture.fresh).1
    = Ok "out/index.md" ∧
  (getFilePath Fixture.platform "https://h" Fixture.rootURL "out" Fixture.fresh).1
    = Ok "out/index.md".
Proof.
  refine (proj2 (proj2 (C6_getFilePath_deterministic Fixture.platform
    "https://h/" "https://h" (mkURL "h" "/" "https://h/") (mkURL "h" "/" "https://h/")
    Fixture.rootURL Fixture.rootURL "out" Fixture.fresh Fixture.fresh
    eq_refl eq_refl)) _ _); simpl; set_solver.
Defined.



(** C8: [fetchPage] issues at most three requests, waiting 1000 times the
    number of the failed attempt before the next one; when the three
    attempts fail it returns [null] after a warning, [processPage] returns
    without having touched the queue or the files, nothing is thrown, and
    the loop goes on with the rest of the queue; a run whose seed cannot be
    fetched ends normally with an empty queue, a warning in its trace and
    no file written. *)
Theorem C8_fetch_retries (P : Platform) (W : World) (D : Downloader)
    (url : string) (s : State) :
  let fails i := answers W (i + tick s) GetPage url pageStatus = None in
  let gave_up :=
    failed_attempts url 2 1 ++
    [EvRequest GetPage url; EvWarn (MsgFailedToFetch url 3)] in
  (∃ (k : nat) (tr : list Event) (result : option Response),
     (k ≤ 2)%nat ∧
     fetchPage W url s = (Ok result, later (S k) (failed_attempts url k 1 ++ tr) s) ∧
     (tr = [EvRequest GetPage url] ∧ is_Some result ∨
      k = 2%nat ∧ tr = [EvRequest GetPage url; EvWarn (MsgFailedToFetch url 3)] ∧
      result = None)) ∧
  (fails 0%nat → fails 1%nat → fails 2%nat →
   fetchPage W url s = (Ok None, later 3 gave_up s) ∧
   (∀ depth base siteDir,
      processPage P W D url depth base siteDir s =
      (Ok tt, later 3 gave_up (marked url depth s))) ∧
   (∀ fuel d q base siteDir,
      queue s = mkEntry url d :: q → url ∉ visited s → d ≤ maxDepth D →
      download_loop P W D (S fuel) base siteDir s =
      download_loop P W D fuel base siteDir
        (later 3 gave_up (marked url d (set_queue q s)))) ∧
   (∀ base, URL_parse P url = Some base → 0 ≤ maxDepth D →
      ∃ s', download P W D 2 url s = Some (Ok tt, s') ∧
            queue s' = [] ∧ files s' = files s ∧
            ∃ tr, log s' = log s ++ tr ++ gave_up ∧
                  Forall (λ ev, ∀ p c, ev ≠ EvWriteFile p c) (tr ++ gave_up))).
Proof.
  intros fails gave_up. subst fails gave_up. split.
  - pose proof (fetchPage_cases W url s) as Hcases. cbv zeta in Hcases.
    destruct (answers W (0 + tick s) GetPage url pageStatus) as [r0|].
    { exists 0%nat, [EvRequest GetPage url], (Some r0).
      split; [lia|]. split; [exact Hcases|]. left. by split. }
    destruct (answers W (1 + tick s) GetPage url pageStatus) as [r1|].
    { exists 1%nat, [EvRequest GetPage url], (Some r1).
      split; [lia|]. split; [exact Hcases|]. left. by split. }
    destruct (answers W (2 + tick s) GetPage url pageStatus) as [r2|].
    { exists 2%nat, [EvRequest GetPage url], (Some r2).
      split; [lia|]. split; [exact Hcases|]. left. by split. }
    exists 2%nat, [EvRequest GetPage url; EvWarn (MsgFailedToFetch url 3)], None.
    split; [lia|]. split; [exact Hcases|]. right. done.
  - intros H0 H1 H2.
    assert (∀ s0, tick s0 = tick s →
              fetchPage W url s0 =
              (Ok None, later 3 (failed_attempts url 2 1 ++
                 [EvRequest GetPage url; EvWarn (MsgFailedToFetch url 3)]) s0)) as Hfetch.
    { intros s0 Ht. pose proof (fetchPage_cases W url s0) as Hcases.
      cbv zeta in Hcases. rewrite Ht in Hcases. by rewrite H0, H1, H2 in Hcases. }
    split; [by apply Hfetch|]. split; [|split].
    + intros depth base siteDir. apply processPage_abandons. by apply Hfetch.
    + intros fuel d q base siteDir Hq Hnew Hdepth.
      rewrite (download_loop_step P W D fuel base siteDir s _ q Hq).
      unfold dequeued. erewrite bind_ok by reflexivity. cbn [depth].
      rewrite bool_decide_eq_false_2 by exact Hnew.
      assert ((maxDepth D <? d) = false) as -> by (apply Z.ltb_ge; lia).
      cbn [orb].
      erewrite try_ok by (apply processPage_abandons; by apply Hfetch).
      reflexivity.
    + intros base Hu Hdepth. eexists. split; [|split; [|split]].
      * rewrite (download_parsed P W D 2 url base s Hu).
        erewrite download_loop_step by reflexivity.
        unfold dequeued. erewrite bind_ok by reflexivity. simpl bool_decide.
        rewrite bool_decide_eq_false_2 by set_solver.
        cbn [depth orb].
        assert ((maxDepth D <? 0) = false) as -> by (apply Z.ltb_ge; lia).
        erewrite try_ok
          by (apply processPage_abandons; by apply Hfetch).
        apply download_loop_done. reflexivity.
      * reflexivity.
      * reflexivity.
      * set (siteDir := path_join P (outputDir D) (getSiteName (hostname base))).
        exists [EvEnsureDir siteDir; EvLog (MsgOutputDirectory siteDir);
                EvVisited url; EvLog (MsgProcessing url 0); EvDelay 500].
        split; [simpl; by rewrite <- !app_assoc|].
        repeat constructor; intros p c; discriminate.
Qed.

(** C8 on a network that answers nothing: the run on [root] ends normally
    and leaves the disk empty. *)
Lemma C8_fetch_retries_witness :
  ∃ s', download Fixture.platform Fixture.offline
          (Fixture.downloader false false None) 2 Fixture.root Fixture.fresh
        = Some (Ok tt, s') ∧
        queue s' = [] ∧ files s' = ∅.
Proof.
  destruct (proj2 (proj2 (proj2 (proj2 (C8_fetch_retries Fixture.platform
    Fixture.offline (Fixture.downloader false false None) Fixture.root Fixture.fresh)
    eq_refl eq_refl eq_refl))) Fixture.rootURL eq_refl)
    as (s' & Hrun & Hq & Hf & _).
  - vm_compute. discriminate.
  - exists s'. auto.
Defined.

(** C9: every run of [download] ends: for some amount of fuel the loop
    returns, with an empty queue when the seed is a URL (the only other
    outcome is the exception that [new URL] throws on the seed, before
    anything is done). An iteration appends to the queue only entries one
    level below the entry it dequeued, and none unless that entry is
    below the maximum depth. *)
Theorem C9_crawl_terminates (P : Platform) (W : World) (D : Downloader)
    (startUrl : string) (s : State) :
  (∃ fuel r s',
     download P W D fuel startUrl s = Some (r, s') ∧
     match URL_parse P startUrl with
     | Some _ => r = Ok tt ∧ queue s' = []
     | None => r = Throw "Invalid URL" ∧ s' = s
     end) ∧
  (∀ e base siteDir s0,
     ∃ ch, queue (dequeued P W D e base siteDir s0).2 = queue s0 ++ ch ∧
           Forall (λ c, depth c = depth e + 1 ∧ depth e < maxDepth D) ch).
Proof.
  split.
  - destruct (URL_parse P startUrl) as [base|] eqn:Hu.
    + set (siteDir := path_join P (outputDir D) (getSiteName (hostname base))).
      destruct (download_loop_exhausts P W D base siteDir
                  (Z.to_nat (maxDepth D)) 0
                  (mkState ∅ [mkEntry startUrl 0] (files s) ({[siteDir]} ∪ dirs s)
                     (tick s) (log s ++ [EvEnsureDir siteDir;
                                         EvLog (MsgOutputDirectory siteDir)])))
        as (fuel & s' & Hrun & Hq).
      * lia.
      * simpl. constructor; [simpl; lia | constructor].
      * exists fuel, (Ok tt), s'.
        by rewrite (download_parsed P W D fuel startUrl base s Hu).
    + exists 0%nat, (Throw "Invalid URL"), s.
      unfold download, download_setup, new_URL. by rewrite Hu.
  - intros e base siteDir s0.
    destruct (dequeued_effect P W D e base siteDir s0)
      as [[_ ->]|(_ & _ & _ & Hch & _)]; [|exact Hch].
    exists []. by rewrite app_nil_r.
Qed.




(** * Further properties of the code *)

(** ** Link discovery: [findAndQueueLinks] *)

Lemma existsb_eqb_elem (x : string) (links : list string) :
  existsb (String.eqb x) links = true ↔ x ∈ links.
Proof.
  induction links as [|y links IH]; simpl.
  - split; [done | intros H; by apply elem_of_nil in H].
  - rewrite orb_true_iff, IH, String.eqb_eq, elem_of_cons. done.
Qed.

Lemma set_add_elem (links : list string) (x l : string) :
  l ∈ set_add links x ↔ l ∈ links ∨ l = x.
Proof.
  unfold set_add. destruct (existsb (String.eqb x) links) eqn:Hx.
  - apply existsb_eqb_elem in Hx. split; [auto | intros [? | ->]; done].
  - rewrite elem_of_app, list_elem_of_singleton. done.
Qed.

Lemma set_add_NoDup (links : list string) (x : string) :
  NoDup links → NoDup (set_add links x).
Proof.
  intros Hnd. unfold set_add. destruct (existsb (String.eqb x) links) eqn:Hx; [done|].
  apply NoDup_app. split; [done|]. split; [|apply NoDup_singleton].
  intros y Hy Hyx. apply list_elem_of_singleton in Hyx as ->.
  apply existsb_eqb_elem in Hy. congruence.
Qed.

Section Discovery.

Context (P : Platform).

(** What one anchor does to the set of links. *)
Lemma visitAnchor_cases currentUrl baseUrl links h :
  (visitAnchor P currentUrl baseUrl links h = links ∧
   ∀ l, ¬ contributes P currentUrl baseUrl h l) ∨
  (∃ l, contributes P currentUrl baseUrl h l ∧
        visitAnchor P currentUrl baseUrl links h = set_add links l).
Proof.
  unfold visitAnchor, contributes.
  destruct (String.eqb h "") eqn:Hh.
  { left. apply String.eqb_eq in Hh. split; [done|]. intros l [? _]. done. }
  apply String.eqb_neq in Hh.
  destruct (URL_resolve P h currentUrl) as [linkUrl|] eqn:Hres.
  2:{ left. split; [done|]. intros l (_ & L & ? & _). done. }
  destruct (String.eqb (hostname linkUrl) (hostname baseUrl)) eqn:Hhost; simpl.
  2:{ left. split; [done|]. intros l (_ & L & [= <-] & Heq & _).
      apply String.eqb_neq in Hhost. done. }
  apply String.eqb_eq in Hhost.
  destruct (shouldSkipUrl (href linkUrl)) eqn:Hskip.
  { left. split; [done|]. intros l (_ & L & [= <-] & _ & ? & _). congruence. }
  right. exists (href linkUrl). split; [|done]. split; [done|]. by exists linkUrl.
Qed.

Lemma fold_visitAnchor_elem currentUrl baseUrl hs :
  ∀ acc l,
    l ∈ fold_left (visitAnchor P currentUrl baseUrl) hs acc ↔
    l ∈ acc ∨ ∃ h, h ∈ hs ∧ contributes P currentUrl baseUrl h l.
Proof.
  induction hs as [|h hs IH]; intros acc l; simpl.
  - split; [auto | intros [?|(h & Hh & _)]; [done | by apply elem_of_nil in Hh]].
  - rewrite IH.
    destruct (visitAnchor_cases currentUrl baseUrl acc h) as [[-> Hno]|(x & Hx & ->)].
    + split.
      * intros [?|(h' & Hh' & Hc)]; [auto|]. right. exists h'. split; [|done].
        by apply elem_of_cons; right.
      * intros [?|(h' & Hh' & Hc)]; [auto|]. right. exists h'. split; [|done].
        apply elem_of_cons in Hh' as [->|?]; [|done]. by destruct (Hno l).
    + rewrite set_add_elem. split.
      * intros [[? | ->]|(h' & Hh' & Hc)]; [auto| |].
        -- right. exists h. split; [apply elem_of_cons; by left | done].
        -- right. exists h'. split; [apply elem_of_cons; by right | done].
      * intros [?|(h' & Hh' & Hc)]; [auto|].
        apply elem_of_cons in Hh' as [->|?].
        -- left. right. destruct Hx as (_ & L & HL & _ & _ & <-).
           destruct Hc as (_ & L' & HL' & _ & _ & <-). congruence.
        -- right. by exists h'.
Qed.

Lemma fold_visitAnchor_NoDup currentUrl baseUrl hs :
  ∀ acc, NoDup acc → NoDup (fold_left (visitAnchor P currentUrl baseUrl) hs acc).
Proof.
  induction hs as [|h hs IH]; intros acc Hnd; simpl; [done|].
  apply IH.
  destruct (visitAnchor_cases currentUrl baseUrl acc h) as [[-> _]|(x & _ & ->)];
    [done | by apply set_add_NoDup].
Qed.

(** The loop over the links pushes the unvisited ones, in order, one
    level down, and does nothing else. *)
Lemma queueLinks_run links d :
  ∀ s, queueLinks links d s =
       (Ok tt, set_queue (queue s ++ entriesAt d (unvisited s links)) s).
Proof.
  induction links as [|l links IH]; intros s.
  - simpl. unfold unvisited, entriesAt. simpl. rewrite app_nil_r. by destruct s.
  - simpl. erewrite bind_ok by reflexivity.
    unfold unvisited, entriesAt in *. simpl.
    destruct (bool_decide (l ∈ visited s)); simpl.
    + erewrite bind_ok by reflexivity. apply IH.
    + erewrite bind_ok by reflexivity. rewrite IH. simpl.
      by rewrite <- app_assoc.
Qed.

End Discovery.

(** X1: the set of links that [findAndQueueLinks] collects from a page.
    A link is collected exactly when some anchor of the page has a
    non-empty [href] that resolves against the URL of the page to a URL of
    the seed's host name which no built-in skip pattern matches, the link
    being the [href] of the resolved URL; and no link is collected twice. *)
Theorem X1_collectLinks (P : Platform) (html currentUrl : string) (baseUrl : URL) :
  (∀ l, l ∈ collectLinks P html currentUrl baseUrl ↔
        ∃ h linkUrl,
          h ∈ cheerio_hrefs P (cheerio_load P html) ∧ h ≠ "" ∧
          URL_resolve P h currentUrl = Some linkUrl ∧
          hostname linkUrl = hostname baseUrl ∧
          shouldSkipUrl (href linkUrl) = false ∧
          href linkUrl = l) ∧
  NoDup (collectLinks P html currentUrl baseUrl).
Proof.
  split.
  - intros l. unfold collectLinks. rewrite fold_visitAnchor_elem. split.
    + intros [Hl|(h & Hh & Hne & L & HL)]; [by apply elem_of_nil in Hl|].
      exists h, L. tauto.
    + intros (h & L & Hh & Hne & HL). right. exists h. split; [done|].
      split; [done|]. by exists L.
  - apply fold_visitAnchor_NoDup. constructor.
Qed.

(** X2: [findAndQueueLinks] never throws and changes nothing but the
    queue, to which it appends, in the order of collection, one entry of
    depth [currentDepth + 1] for every collected link that is not in the
    visited set; a visited link is never enqueued and no link is enqueued
    twice by one call. *)
Theorem X2_findAndQueueLinks (P : Platform) (html currentUrl : string)
    (baseUrl : URL) (currentDepth : Z) (s : State) :
  let pushed := unvisited s (collectLinks P html currentUrl baseUrl) in
  findAndQueueLinks P html currentUrl baseUrl currentDepth s =
    (Ok tt, set_queue (queue s ++ map (λ l, mkEntry l (currentDepth + 1)) pushed) s) ∧
  NoDup pushed ∧
  ∀ l, l ∈ pushed ↔ l ∈ collectLinks P html currentUrl baseUrl ∧ l ∉ visited s.
Proof.
  intros pushed. subst pushed. split; [|split].
  - unfold findAndQueueLinks. by rewrite queueLinks_run.
  - unfold unvisited. apply NoDup_ListNoDup, List.NoDup_filter, NoDup_ListNoDup.
    apply fold_visitAnchor_NoDup. constructor.
  - intros l. unfold unvisited.
    rewrite list_elem_of_In, List.filter_In, <- list_elem_of_In, negb_true_iff.
    rewrite bool_decide_eq_false. done.
Qed.

(** ** The footprint of the methods *)

Lemma preserves_bind_post (R : relation State) `{!PreOrder R} {A B}
    (Post : A → Prop) (m : M A) (f : A → M B) :
  (∀ s a s1, m s = (Ok a, s1) → Post a) →
  preserves R m →
  (∀ a, Post a → preserves R (f a)) →
  preserves R (m ≫= f).
Proof.
  intros Hpost Hm Hf s. unfold mbind, M_bind.
  specialize (Hm s). specialize (Hpost s).
  destruct (m s) as [[a|e] s1]; simpl in *; [|exact Hm].
  transitivity s1; [exact Hm | by apply Hf, (Hpost a s1)].
Qed.

#[global] Instance effect_preorder V Q Wr : PreOrder (effect V Q Wr).
Proof.
  split.
  - intros s HV. split; [done|]. split; [|split].
    + exists []. by rewrite app_nil_r.
    + done.
    + exists []. by rewrite app_nil_r.
  - intros s1 s2 s3 H12 H23 HV.
    destruct (H12 HV) as (HV2 & (c1 & Hq1 & Hc1) & Hf1 & tr1 & Hl1 & Ht1).
    destruct (H23 HV2) as (HV3 & (c2 & Hq2 & Hc2) & Hf2 & tr2 & Hl2 & Ht2).
    split; [done|]. split; [|split].
    + exists (c1 ++ c2). rewrite Hq2, Hq1, <- app_assoc. split; [done|].
      by apply Forall_app.
    + intros q Hq. by rewrite Hf2, Hf1.
    + exists (tr1 ++ tr2). rewrite Hl2, Hl1, <- app_assoc. split; [done|].
      by apply Forall_app.
Qed.

Section Footprints.

Context (P : Platform) (W : World) (D : Downloader).
Context (V : gset string) (Q : FrontierEntry → Prop) (Wr : string → Prop).

Lemma effect_record ev s : routine Wr ev → effect V Q Wr s (record ev s).
Proof.
  intros Hev HV. split; [done|]. split; [|split].
  - exists []. by rewrite app_nil_r.
  - done.
  - exists [ev]. split; [done|]. by constructor.
Qed.

Lemma effect_silent s s' :
  visited s' = visited s → queue s' = queue s → files s' = files s →
  log s' = log s → effect V Q Wr s s'.
Proof.
  intros Hv Hq Hf Hl HV. split; [congruence|]. split; [|split].
  - exists []. by rewrite app_nil_r.
  - intros q _. by rewrite Hf.
  - exists []. by rewrite app_nil_r.
Qed.

Lemma effect_emit ev : routine Wr ev → preserves (effect V Q Wr) (emit ev).
Proof. intros Hev s. by apply effect_record. Qed.

Lemma effect_console_log m :
  routine Wr (EvLog m) → preserves (effect V Q Wr) (console_log m).
Proof. apply effect_emit. Qed.

Lemma effect_console_warn m : preserves (effect V Q Wr) (console_warn m).
Proof. by apply effect_emit. Qed.

Lemma effect_delay ms : preserves (effect V Q Wr) (delay ms).
Proof. by apply effect_emit. Qed.

Lemma effect_axios req u v : preserves (effect V Q Wr) (axios W req u v).
Proof.
  intros s. unfold axios.
  assert (effect V Q Wr s (next_tick (record (EvRequest req u) s))) as H.
  { etransitivity; [by apply (effect_record (EvRequest req u))|].
    by apply effect_silent. }
  destruct (net W (tick s) req u) as [r|]; [destruct (v (status r))|]; exact H.
Qed.

Lemma effect_now : preserves (effect V Q Wr) (now W).
Proof. intros s. by apply effect_silent. Qed.

Lemma effect_ensureDir d : preserves (effect V Q Wr) (ensureDir d).
Proof.
  intros s. unfold ensureDir, modify; simpl.
  etransitivity; [|by apply (effect_record (EvEnsureDir d))].
  by apply effect_silent.
Qed.

Lemma effect_writeFile p c : Wr p → preserves (effect V Q Wr) (writeFile p c).
Proof.
  intros Hp s HV. unfold writeFile, modify; simpl. split; [done|]. split; [|split].
  - exists []. by rewrite app_nil_r.
  - intros q Hq. apply lookup_insert_ne. by intros ->.
  - exists [EvWriteFile p c]. split; [done|]. by constructor.
Qed.

Hint Resolve effect_console_warn effect_delay effect_axios effect_now
  effect_ensureDir effect_writeFile : frame.
Hint Extern 1 (preserves (effect _ _ _) (console_log _)) =>
  apply effect_console_log; exact I : frame.

Lemma effect_new_URL u : preserves (effect V Q Wr) (new_URL P u).
Proof. unfold new_URL. frame. Qed.

Lemma effect_pathExists p : preserves (effect V Q Wr) (pathExists p).
Proof. unfold pathExists. frame. Qed.

Hint Resolve effect_new_URL effect_pathExists : frame.

Lemma effect_fetchPage_from left attempt u :
  preserves (effect V Q Wr) (fetchPage_from W left attempt u).
Proof. revert attempt. induction left as [|left IH]; intros attempt; simpl; frame. Qed.

Lemma effect_fetchPage u : preserves (effect V Q Wr) (fetchPage W u).
Proof. apply effect_fetchPage_from. Qed.

Lemma effect_probe u : preserves (effect V Q Wr) (probe W u).
Proof. unfold probe. frame. Qed.

Hint Resolve effect_fetchPage effect_probe : frame.

Lemma effect_probeCandidates cs : preserves (effect V Q Wr) (probeCandidates P W cs).
Proof. induction cs as [|c cs IH]; simpl; frame. Qed.

Hint Resolve effect_probeCandidates : frame.

Lemma effect_checkForMarkdownVersion u :
  preserves (effect V Q Wr) (checkForMarkdownVersion P W u).
Proof. unfold checkForMarkdownVersion. frame. Qed.

Lemma effect_extractContent html u : preserves (effect V Q Wr) (extractContent P D html u).
Proof. unfold extractContent. frame. Qed.

Lemma effect_getFilePath u b d : preserves (effect V Q Wr) (getFilePath P u b d).
Proof. unfold getFilePath. frame. Qed.

Lemma effect_saveMarkdown md p src :
  Wr p → preserves (effect V Q Wr) (saveMarkdown P W D md p src).
Proof. intros Hp. unfold saveMarkdown. frame. Qed.

End Footprints.

#[global] Hint Resolve effect_console_warn effect_delay effect_axios effect_now
  effect_ensureDir effect_writeFile effect_new_URL effect_pathExists
  effect_fetchPage effect_probe effect_probeCandidates
  effect_checkForMarkdownVersion effect_extractContent effect_getFilePath
  effect_saveMarkdown : frame.
#[global] Hint Extern 1 (preserves (effect _ _ _) (console_log _)) =>
  apply effect_console_log; exact I : frame.

Section PageFootprint.

Context (P : Platform) (W : World) (D : Downloader).

Lemma getFilePath_post url base siteDir s a s1 :
  getFilePath P url base siteDir s = (Ok a, s1) → ownFile P siteDir url a.
Proof.
  unfold getFilePath, new_URL, ownFile, mbind, M_bind.
  destruct (URL_parse P url) as [u|]; simpl; [|discriminate].
  intros [= <- _]. by exists u.
Qed.

(** Walks through a method that saves at the path [getFilePath] returns. *)
Ltac footprint_step :=
  lazymatch goal with
  | |- preserves (effect _ _ (ownFile ?P ?dir ?u)) (getFilePath _ _ _ _ ≫= _) =>
      apply (preserves_bind_post _ (ownFile P dir u));
      [ apply getFilePath_post
      | eauto with frame
      | intros ? ?; by apply effect_saveMarkdown ]
  | |- _ => frame_step
  end.

Ltac footprint := lazy beta zeta; repeat footprint_step.

Lemma effect_downloadMarkdown V Q mdUrl originalUrl siteDir :
  preserves (effect V Q (ownFile P siteDir originalUrl))
    (downloadMarkdown P W D mdUrl originalUrl siteDir).
Proof. unfold downloadMarkdown. footprint. Qed.

Lemma effect_convertPage V Q html url base siteDir config :
  preserves (effect V Q (ownFile P siteDir url))
    (convertPage P W D html url base siteDir config).
Proof. unfold convertPage. footprint. Qed.

Lemma effect_findAndQueueLinks V Wr html page base d :
  d < maxDepth D →
  preserves (effect V (foundOn P D page base d V) Wr)
    (findAndQueueLinks P html page base d).
Proof.
  intros Hd s HV. unfold findAndQueueLinks. rewrite queueLinks_run. simpl.
  split; [done|]. split; [|split].
  - eexists. split; [reflexivity|]. unfold entriesAt, unvisited.
    apply Forall_forall. intros c Hc.
    apply list_elem_of_fmap in Hc as (l & -> & Hl).
    apply list_elem_of_In, List.filter_In in Hl as [Hl Hnew].
    apply list_elem_of_In in Hl.
    apply negb_true_iff, bool_decide_eq_false in Hnew.
    unfold collectLinks in Hl. apply fold_visitAnchor_elem in Hl as [Hl|(h & _ & Hh)];
      [by apply elem_of_nil in Hl|].
    split; [done|]. split; [done|]. split; [by rewrite <- HV|]. by exists h.
  - done.
  - exists []. by rewrite app_nil_r.
Qed.

(** Everything [processPage] does, seen from outside. *)
Lemma processPage_footprint page d base siteDir s :
  let s' := (processPage P W D page d base siteDir s).2 in
  let V := {[page]} ∪ visited s in
  visited s' = V ∧
  (∃ ch, queue s' = queue s ++ ch ∧ Forall (foundOn P D page base d V) ch) ∧
  (∀ q, ¬ ownFile P siteDir page q → files s' !! q = files s !! q) ∧
  ∃ tr, log s' = log s ++ EvVisited page :: EvLog (MsgProcessing page d) :: tr ∧
        Forall (routine (ownFile P siteDir page)) tr.
Proof.
  intros s' V. subst s'. unfold processPage.
  match goal with
  | |- context [modify ?f ≫= (λ _, ?m1 ≫= ?k)] =>
      set (mark := f); set (rest := k tt);
      assert (preserves (effect V (foundOn P D page base d V)
                           (ownFile P siteDir page)) rest) as Hrest
  end.
  { subst rest. frame.
    - apply effect_findAndQueueLinks. by apply Z.ltb_lt.
    - apply effect_convertPage.
    - apply effect_downloadMarkdown.
    - apply effect_convertPage. }
  set (s0 := record (EvLog (MsgProcessing page d)) (mark s)).
  match goal with
  | |- context [(modify mark ≫= ?k0) s] =>
      change ((modify mark ≫= k0) s) with (rest s0)
  end.
  destruct (Hrest s0 eq_refl) as (Hv & (ch & Hq & Hch) & Hf & tr & Hl & Htr).
  split; [exact Hv|]. split; [|split].
  - exists ch. by rewrite Hq.
  - exact Hf.
  - exists tr. rewrite Hl. subst s0. simpl. split; [|done]. by rewrite <- !app_assoc.
Qed.

(** The two outcomes of an iteration of the loop, seen from outside. *)
Lemma dequeued_footprint e base siteDir s :
  let s' := (dequeued P W D e base siteDir s).2 in
  let V := {[url e]} ∪ visited s in
  ((url e ∈ visited s ∨ maxDepth D < depth e) ∧ s' = s) ∨
  ((url e ∉ visited s) ∧ depth e ≤ maxDepth D ∧
   visited s' = V ∧
   (∃ ch, queue s' = queue s ++ ch ∧ Forall (foundOn P D (url e) base (depth e) V) ch) ∧
   (∀ q, ¬ ownFile P siteDir (url e) q → files s' !! q = files s !! q) ∧
   ∃ tr, log s' = log s ++ EvVisited (url e) :: EvLog (MsgProcessing (url e) (depth e)) :: tr ∧
         Forall (routine (ownFile P siteDir (url e))) tr).
Proof.
  unfold dequeued, mbind, M_bind, gets, try_catch. simpl.
  destruct (bool_decide (url e ∈ visited s)) eqn:Hseen; simpl.
  { left. apply bool_decide_eq_true in Hseen. auto. }
  apply bool_decide_eq_false in Hseen.
  destruct (maxDepth D <? depth e) eqn:Hdeep; simpl.
  { left. apply Z.ltb_lt in Hdeep. auto. }
  apply Z.ltb_ge in Hdeep. right.
  pose proof (processPage_footprint (url e) (depth e) base siteDir s) as Heff.
  destruct (processPage P W D (url e) (depth e) base siteDir s) as [[[]|err] s1];
    simpl in *.
  { repeat split; try done; apply Heff. }
  destruct Heff as (Hv & Hq & Hf & tr & Hl & Htr).
  repeat split; try done.
  exists (tr ++ [EvWarn (MsgFailedToProcess (url e))]).
  rewrite Hl. simpl. rewrite <- !app_assoc. split; [done|].
  apply Forall_app. split; [done|]. by repeat constructor.
Qed.

End PageFootprint.

(** ** The footprint of a run *)

Section RunFootprint.

Context (P : Platform) (W : World) (D : Downloader).

(** What a finished loop has done, for a property [G] of frontier
    entries, relative to a set of visited URLs, that passes from a
    processed entry to the entries found on its page. *)
Lemma download_loop_closed (G : gset string → FrontierEntry → Prop) base siteDir :
  (∀ V V' e, V ⊆ V' → G V e → G V' e) →
  (∀ e V c, G V e → depth e ≤ maxDepth D →
            foundOn P D (url e) base (depth e) ({[url e]} ∪ V) c →
            G ({[url e]} ∪ V) c) →
  ∀ fuel s r s',
    download_loop P W D fuel base siteDir s = Some (r, s') →
    Forall (G (visited s)) (queue s) →
    r = Ok tt ∧ queue s' = [] ∧ visited s ⊆ visited s' ∧
    ∃ tr, log s' = log s ++ tr ∧
      (∀ u d, processedAt tr u d →
              G (visited s') (mkEntry u d) ∧ d ≤ maxDepth D ∧
              u ∈ visited s' ∧ u ∉ visited s) ∧
      (∀ u, u ∈ visited s' → (u ∉ visited s) → ∃ d, processedAt tr u d) ∧
      (∀ p c, EvWriteFile p c ∈ tr →
              ∃ u, u ∈ visited s' ∧ (u ∉ visited s) ∧ ownFile P siteDir u p) ∧
      (∀ q, (∀ u, u ∈ visited s' → u ∉ visited s → ¬ ownFile P siteDir u q) →
            files s' !! q = files s !! q).
Proof.
  intros Hmono Hclosed. unfold processedAt.
  induction fuel as [|fuel IH]; intros s r s' Hrun HG; [discriminate|].
  destruct (queue s) as [|e q] eqn:Hq.
  { rewrite download_loop_done in Hrun by done. injection Hrun as <- <-.
    split; [done|]. split; [done|]. split; [done|]. exists []. rewrite app_nil_r.
    split; [done|]. split; [|split; [|split]].
    - intros u d Hin. by apply elem_of_nil in Hin.
    - intros u Hu Hnu. done.
    - intros p c Hin. by apply elem_of_nil in Hin.
    - done. }
  rewrite (download_loop_step P W D fuel base siteDir s e q Hq) in Hrun.
  apply Forall_cons in HG as [He HGq].
  destruct (dequeued_footprint P W D e base siteDir (set_queue q s))
    as [[_ Heq]|(Hnew & Hdepth & Hv & (ch & Hch & HQ) & Hf & tr1 & Hl1 & Htr1)].
  - rewrite Heq in Hrun. apply IH in Hrun; [|exact HGq]. exact Hrun.
  - simpl in Hnew, Hv, Hch, Hf, Hl1.
    apply IH in Hrun as (-> & Hempty & Hsub & tr2 & Hl2 & Hproc & Hall & Hwr & Hfiles).
    2:{ rewrite Hch, Hv. apply Forall_app. split.
        - eapply Forall_impl; [exact HGq|]. intros c. apply Hmono. set_solver.
        - eapply Forall_impl; [exact HQ|]. intros c Hc. by apply Hclosed. }
    rewrite Hv in Hsub, Hproc, Hall, Hwr, Hfiles.
    assert (url e ∈ visited s') as Hmine by set_solver.
    split; [done|]. split; [done|]. split; [set_solver|].
    exists (EvVisited (url e) :: EvLog (MsgProcessing (url e) (depth e)) :: tr1 ++ tr2).
    split; [rewrite Hl2, Hl1; simpl; by rewrite <- !app_assoc|].
    split; [|split; [|split]].
    + intros u d Hin.
      apply elem_of_cons in Hin as [?|Hin]; [discriminate|].
      apply elem_of_cons in Hin as [[= -> ->]|Hin].
      { split; [|done]. destruct e. simpl. eapply Hmono; [|exact He]. set_solver. }
      apply elem_of_app in Hin as [Hin|Hin].
      { rewrite Forall_forall in Htr1. by apply Htr1 in Hin. }
      apply Hproc in Hin as (? & ? & ? & ?). repeat split; try done. set_solver.
    + intros u Hu Hnu. destruct (decide (u = url e)) as [->|Hne].
      * exists (depth e). apply elem_of_cons. right. apply elem_of_cons. by left.
      * destruct (Hall u Hu) as [d Hd]; [set_solver|].
        exists d. apply elem_of_cons. right. apply elem_of_cons. right.
        apply elem_of_app. by right.
    + intros p c Hin.
      apply elem_of_cons in Hin as [?|Hin]; [discriminate|].
      apply elem_of_cons in Hin as [?|Hin]; [discriminate|].
      apply elem_of_app in Hin as [Hin|Hin].
      { rewrite Forall_forall in Htr1. apply Htr1 in Hin. simpl in Hin.
        by exists (url e). }
      apply Hwr in Hin as (u & ? & ? & ?). exists u. repeat split; try done. set_solver.
    + intros f Hnot. rewrite Hfiles, Hf; [done| |].
      * by apply Hnot.
      * intros u Hu Hnu. apply Hnot; [done|]. set_solver.
Qed.

(** [origin] passes from a processed entry to the entries found on its
    page. *)
Lemma origin_mono startUrl base V V' e :
  V ⊆ V' → origin P startUrl base V e → origin P startUrl base V' e.
Proof.
  intros Hsub [Hd [Hseed|(page & h & Hpage & Hc)]]; (split; [done|]).
  - by left.
  - right. exists page, h. split; [set_solver|done].
Qed.

Lemma origin_closed startUrl base e V c :
  origin P startUrl base V e → depth e ≤ maxDepth D →
  foundOn P D (url e) base (depth e) ({[url e]} ∪ V) c →
  origin P startUrl base ({[url e]} ∪ V) c.
Proof.
  intros [Hd _] _ (Hdc & _ & _ & h & Hc). split; [lia|].
  right. exists (url e), h. split; [set_solver|done].
Qed.

(** A run on a seed that parses, as a whole: it returns normally; the
    URLs in the visited set at its end are those it has processed, each
    with an [origin]; it writes no file but the file of a URL it has
    processed. *)
Lemma download_footprint fuel startUrl base s r s' :
  URL_parse P startUrl = Some base →
  download P W D fuel startUrl s = Some (r, s') →
  r = Ok tt ∧ queue s' = [] ∧
  ∃ tr, log s' = log s ++ EvEnsureDir (siteDirOf P D base) ::
                          EvLog (MsgOutputDirectory (siteDirOf P D base)) :: tr ∧
    (∀ u d, processedAt tr u d →
            origin P startUrl base (visited s') (mkEntry u d) ∧ d ≤ maxDepth D ∧
            u ∈ visited s') ∧
    (∀ u, u ∈ visited s' → ∃ d, processedAt tr u d) ∧
    (∀ p c, EvWriteFile p c ∈ tr →
            ∃ u, u ∈ visited s' ∧ ownFile P (siteDirOf P D base) u p) ∧
    (∀ q, (∀ u, u ∈ visited s' → ¬ ownFile P (siteDirOf P D base) u q) →
          files s' !! q = files s !! q).
Proof.
  intros Hu Hrun. rewrite (download_parsed P W D fuel startUrl base s Hu) in Hrun.
  apply (download_loop_closed (origin P startUrl base)) in Hrun
    as (-> & Hempty & _ & tr & Hl & Hproc & Hall & Hwr & Hfiles).
  - simpl in Hl, Hproc, Hall, Hwr, Hfiles. split; [done|]. split; [done|]. exists tr.
    split; [by rewrite Hl, <- app_assoc|]. split; [|split; [|split]].
    + intros u d Hin. apply Hproc in Hin as (? & ? & ? & _). done.
    + intros u Hin. apply Hall; [done|set_solver].
    + intros p c Hin. apply Hwr in Hin as (u & ? & _ & ?). by exists u.
    + intros q Hq. apply Hfiles. intros u ? _. by apply Hq.
  - apply origin_mono.
  - apply origin_closed.
  - simpl. constructor; [|constructor]. split; [done|]. by left.
Qed.

End RunFootprint.

(** ** Properties of a whole run *)

(** The first iteration of a run processes the seed, unless the maximum
    depth is negative. *)
Lemma download_seed_processed P W D fuel startUrl base s r s' :
  URL_parse P startUrl = Some base →
  0 ≤ maxDepth D →
  download P W D fuel startUrl s = Some (r, s') →
  ∃ tr, log s' = log s ++ tr ∧ processedAt tr startUrl 0.
Proof.
  intros Hu Hmax Hrun. rewrite (download_parsed P W D fuel startUrl base s Hu) in Hrun.
  destruct fuel as [|fuel]; [discriminate|].
  erewrite download_loop_step in Hrun by reflexivity.
  match type of Hrun with
  | context [dequeued P W D ?e ?b ?dir ?s0] =>
      destruct (dequeued_footprint P W D e b dir s0)
        as [[[Hin|Hdeep] _]|(_ & _ & _ & _ & _ & tr1 & Hl1 & _)]
  end.
  - simpl in Hin. set_solver.
  - simpl in Hdeep. lia.
  - apply (download_loop_closed P W D (λ _ _, True)) in Hrun
      as (_ & _ & _ & tr2 & Hl2 & _); [| done | done | by apply Forall_true].
    simpl in Hl1. rewrite Hl1 in Hl2. eexists. split.
    + rewrite Hl2, <- !app_assoc. reflexivity.
    + unfold processedAt. simpl. set_solver.
Qed.

(** X3: the pages a run processes are at depths between 0 and the
    maximum depth of the downloader, whatever the site configuration; and
    the seed is processed, at depth 0, unless the maximum depth is
    negative. *)
Theorem X3_processed_depths (P : Platform) (W : World) (D : Downloader)
    (fuel : nat) (startUrl : string) (base : URL) (s : State)
    (r : Result unit) (s' : State) :
  URL_parse P startUrl = Some base →
  download P W D fuel startUrl s = Some (r, s') →
  ∃ tr, log s' = log s ++ tr ∧
        (∀ u d, processedAt tr u d → 0 ≤ d ≤ maxDepth D) ∧
        (0 ≤ maxDepth D → processedAt tr startUrl 0).
Proof.
  intros Hu Hrun.
  destruct (download_footprint P W D fuel startUrl base s r s' Hu Hrun)
    as (_ & _ & tr & Hl & Hproc & _).
  eexists. split; [exact Hl|]. split.
  - intros u d Hin. unfold processedAt in Hin.
    apply elem_of_cons in Hin as [?|Hin]; [discriminate|].
    apply elem_of_cons in Hin as [?|Hin]; [discriminate|].
    apply Hproc in Hin as ([Hd _] & ? & _). simpl in Hd. lia.
  - intros Hmax.
    destruct (download_seed_processed P W D fuel startUrl base s r s' Hu Hmax Hrun)
      as (tr' & Hl' & Hin).
    rewrite Hl' in Hl. apply app_inv_head in Hl. by subst tr'.
Qed.

(** X3 on the three-page site. *)
Lemma X3_processed_depths_witness :
  let D := Fixture.downloader false false None in
  let run := download Fixture.platform Fixture.world D 5 Fixture.root Fixture.fresh in
  let s' := default Fixture.fresh (outcome id run) in
  ∃ tr, log s' = log Fixture.fresh ++ tr ∧
        (∀ u d, processedAt tr u d → 0 ≤ d ≤ maxDepth D) ∧
        (0 ≤ maxDepth D → processedAt tr Fixture.root 0).
Proof.
  refine (X3_processed_depths Fixture.platform Fixture.world
            (Fixture.downloader false false None) 5 Fixture.root Fixture.rootURL
            Fixture.fresh (Ok tt) _ _ _).
  - vm_compute. reflexivity.
  - vm_compute. reflexivity.
Defined.



(** X5: a run writes no file but the files of the pages it has visited,
    each under the site directory of the seed: every write of the run goes
    to the path that [getFilePath] derives from a visited URL, and a path
    that no visited URL maps to holds after the run what it held before. *)
Theorem X5_run_writes_own_files (P : Platform) (W : World) (D : Downloader)
    (fuel : nat) (startUrl : string) (base : URL) (s : State)
    (r : Result unit) (s' : State) :
  URL_parse P startUrl = Some base →
  download P W D fuel startUrl s = Some (r, s') →
  (∃ tr, log s' = log s ++ tr ∧
         ∀ p c, EvWriteFile p c ∈ tr →
                ∃ u U, u ∈ visited s' ∧ URL_parse P u = Some U ∧
                       p = path_join P (siteDirOf P D base) (safePath (pathname U))) ∧
  (∀ q, (∀ u U, u ∈ visited s' → URL_parse P u = Some U →
                q ≠ path_join P (siteDirOf P D base) (safePath (pathname U))) →
        files s' !! q = files s !! q).
Proof.
  intros Hu Hrun.
  destruct (download_footprint P W D fuel startUrl base s r s' Hu Hrun)
    as (_ & _ & tr & Hl & _ & _ & Hwr & Hfiles).
  split.
  - eexists. split; [exact Hl|]. intros p c Hin.
    apply elem_of_cons in Hin as [?|Hin]; [discriminate|].
    apply elem_of_cons in Hin as [?|Hin]; [discriminate|].
    apply Hwr in Hin as (u & Hv & U & HU & ->). by exists u, U.
  - intros q Hq. apply Hfiles. intros u Hv (U & HU & ->). by eapply Hq.
Qed.

(** X5 on the three-page site. *)
Lemma X5_run_writes_own_files_witness :
  let D := Fixture.downloader false false None in
  let run := download Fixture.platform Fixture.world D 5 Fixture.root Fixture.fresh in
  let s' := default Fixture.fresh (outcome id run) in
  (∃ tr, log s' = log Fixture.fresh ++ tr ∧
         ∀ p c, EvWriteFile p c ∈ tr →
                ∃ u U, u ∈ visited s' ∧ URL_parse Fixture.platform u = Some U ∧
                       p = path_join Fixture.platform
                             (siteDirOf Fixture.platform D Fixture.rootURL)
                             (safePath (pathname U))) ∧
  (∀ q, (∀ u U, u ∈ visited s' → URL_parse Fixture.platform u = Some U →
                q ≠ path_join Fixture.platform
                      (siteDirOf Fixture.platform D Fixture.rootURL)
                      (safePath (pathname U))) →
        files s' !! q = files Fixture.fresh !! q).
Proof.
  refine (X5_run_writes_own_files Fixture.platform Fixture.world
            (Fixture.downloader false false None) 5 Fixture.root Fixture.rootURL
            Fixture.fresh (Ok tt) _ _ _).
  - vm_compute. reflexivity.
  - vm_compute. reflexivity.
Defined.



(** X7: a run starts afresh: [download] resets the visited set and the
    queue, so that what they held before, from an earlier run of the same
    downloader, has no effect on the run, and a URL visited by an earlier
    run is processed again; the visited set at the end of a run holds the
    URLs processed in that run and no other. *)
Theorem X7_run_starts_afresh (P : Platform) (W : World) (D : Downloader)
    (fuel : nat) (startUrl : string) (base : URL) (s : State) :
  URL_parse P startUrl = Some base →
  (∀ V q, download P W D fuel startUrl (set_queue q (set_visited V s))
          = download P W D fuel startUrl s) ∧
  (∀ r s', download P W D fuel startUrl s = Some (r, s') →
           ∃ tr, log s' = log s ++ tr ∧
                 ∀ u, u ∈ visited s' ↔ ∃ d, processedAt tr u d).
Proof.
  intros Hu. split.
  - intros V q. by rewrite !(download_parsed P W D fuel startUrl base _ Hu).
  - intros r s' Hrun.
    destruct (download_footprint P W D fuel startUrl base s r s' Hu Hrun)
      as (_ & _ & tr & Hl & Hproc & Hall & _).
    eexists. split; [exact Hl|]. intros u. split.
    + intros Hin. destruct (Hall u Hin) as [d Hd]. exists d.
      unfold processedAt in *. set_solver.
    + intros [d Hd]. unfold processedAt in Hd.
      apply elem_of_cons in Hd as [?|Hd]; [discriminate|].
      apply elem_of_cons in Hd as [?|Hd]; [discriminate|].
      by apply Hproc in Hd as (_ & _ & ?).
Qed.

(** X7 for a second run of a downloader that has visited the seed. *)
Lemma X7_run_starts_afresh_witness :
  let D := Fixture.downloader false false None in
  let used := set_queue [mkEntry Fixture.page_a 7] (set_visited {[Fixture.root]} Fixture.fresh) in
  download Fixture.platform Fixture.world D 5 Fixture.root used
  = download Fixture.platform Fixture.world D 5 Fixture.root Fixture.fresh.
Proof.
  refine (proj1 (X7_run_starts_afresh Fixture.platform Fixture.world
            (Fixture.downloader false false None) 5 Fixture.root Fixture.rootURL
            Fixture.fresh _) {[Fixture.root]} [mkEntry Fixture.page_a 7]).
  vm_compute. reflexivity.
Defined.

(** ** The markdown probe *)

Section ProbeRun.

Context (P : Platform) (W : World).

(** The probe of one candidate. *)
Lemma probe_run m s :
  (probe W m s).2 = afterProbe W m s ∧
  match probeResponse W (tick s) m with
  | Some r => (probe W m s).1 = Ok r
  | None => ∃ e, (probe W m s).1 = Throw e
  end.
Proof.
  unfold probe, probeResponse, afterProbe, try_catch.
  destruct (answers W (tick s) HeadProbe m defaultStatus) as [r|] eqn:Hhead.
  - by rewrite (axios_ok W _ _ _ _ _ Hhead).
  - destruct (axios_rejects W _ _ _ _ Hhead) as [e ->].
    change (tick (after_request HeadProbe m s)) with (S (tick s)).
    destruct (answers W (S (tick s)) RangeProbe m defaultStatus) as [r|] eqn:Hget.
    + rewrite (axios_ok W RangeProbe m defaultStatus (after_request HeadProbe m s) r); done.
    + destruct (axios_rejects W RangeProbe m defaultStatus
                  (after_request HeadProbe m s)) as [e' ->]; [done|]. eauto.
Qed.

(** One iteration of the loop over the candidates. *)
Lemma probeCandidates_step m rest s :
  probeCandidates P W (m :: rest) s =
  if probeAccepts P W (tick s) m then (Ok (Some m), afterProbe W m s)
  else probeCandidates P W rest (afterProbe W m s).
Proof.
  destruct (probe_run m s) as [Hs Hr]. unfold probeAccepts.
  cbn [probeCandidates]. unfold mbind at 1, M_bind, try_catch, mbind, M_bind, mret, M_ret.
  destruct (probe W m s) as [res s1]. simpl in Hs, Hr. subst s1.
  destruct (probeResponse W (tick s) m) as [r|].
  - subst res. by destruct (acceptsResponse P m r).
  - by destruct Hr as [e ->].
Qed.

(** What the probe of one candidate leaves. *)
Lemma afterProbe_trace m s :
  let s1 := afterProbe W m s in
  visited s1 = visited s ∧ queue s1 = queue s ∧
  files s1 = files s ∧ dirs s1 = dirs s ∧
  ∃ tr, log s1 = log s ++ tr ∧ tick s1 = (tick s + List.length tr)%nat ∧
        (1 ≤ List.length tr ≤ 2)%nat ∧ Forall (probes [m]) tr.
Proof.
  unfold afterProbe.
  destruct (answers W (tick s) HeadProbe m defaultStatus); simpl.
  - repeat (split; [done|]). exists [EvRequest HeadProbe m].
    split; [done|]. split; [simpl; lia|]. split; [simpl; lia|].
    constructor; [|constructor]. exists m. split; [left|]; auto.
  - repeat (split; [done|]). exists [EvRequest HeadProbe m; EvRequest RangeProbe m].
    split; [by rewrite <- app_assoc|]. split; [simpl; lia|]. split; [simpl; lia|].
    repeat constructor; exists m; (split; [left|]; auto).
Qed.

Lemma probes_mono cs cs' ev : cs ⊆ cs' → probes cs ev → probes cs' ev.
Proof. intros Hsub (m & Hm & Hev). exists m. split; [by apply Hsub|done]. Qed.

(** The loop over the candidates returns the first candidate that is
    accepted, having probed and refused those before it, and [None] when
    all are refused; it does not throw. *)
Lemma probeCandidates_spec cs :
  ∀ s, ∃ res s',
    probeCandidates P W cs s = (Ok res, s') ∧ probing cs s s' ∧
    match res with
    | Some m =>
        ∃ before after,
          cs = before ++ m :: after ∧
          (∃ t, (tick s ≤ t < tick s')%nat ∧ probeAccepts P W t m = true) ∧
          (∀ b, b ∈ before →
                ∃ t, (tick s ≤ t < tick s')%nat ∧ probeAccepts P W t b = false)
    | None =>
        ∀ b, b ∈ cs → ∃ t, (tick s ≤ t < tick s')%nat ∧ probeAccepts P W t b = false
    end.
Proof.
  induction cs as [|m rest IH]; intros s.
  { exists None, s. split; [done|]. split.
    - repeat (split; [done|]). exists []. rewrite app_nil_r. simpl.
      repeat split; try done; lia.
    - intros b Hb. by apply elem_of_nil in Hb. }
  rewrite probeCandidates_step.
  destruct (afterProbe_trace m s) as (Hv & Hq & Hf & Hd & tr1 & Hl1 & Ht1 & Hn1 & Hp1).
  destruct (probeAccepts P W (tick s) m) eqn:Hacc.
  - exists (Some m), (afterProbe W m s). split; [done|]. split.
    + repeat (split; [done|]). exists tr1. split; [done|]. split; [done|].
      split; [simpl; lia|]. eapply Forall_impl; [exact Hp1|].
      intros ev. apply probes_mono. set_solver.
    + exists [], rest. split; [done|]. split.
      * exists (tick s). split; [lia|done].
      * intros b Hb. by apply elem_of_nil in Hb.
  - destruct (IH (afterProbe W m s))
      as (res & s' & -> & (Hv' & Hq' & Hf' & Hd' & tr2 & Hl2 & Ht2 & Hn2 & Hp2) & Hres).
    exists res, s'. split; [done|]. split.
    + split; [congruence|]. split; [congruence|]. split; [congruence|].
      split; [congruence|]. exists (tr1 ++ tr2).
      split; [by rewrite Hl2, Hl1, <- app_assoc|].
      split; [rewrite length_app; lia|]. split; [rewrite length_app; simpl; lia|].
      apply Forall_app. split.
      * eapply Forall_impl; [exact Hp1|]. intros ev. apply probes_mono. set_solver.
      * eapply Forall_impl; [exact Hp2|]. intros ev. apply probes_mono. set_solver.
    + destruct res as [found|].
      * destruct Hres as (before & after & -> & (t & Ht & Hfound) & Hbefore).
        exists (m :: before), after. split; [done|]. split.
        -- exists t. split; [lia|done].
        -- intros b Hb. apply elem_of_cons in Hb as [->|Hb].
           ++ exists (tick s). split; [lia|done].
           ++ destruct (Hbefore b Hb) as (t' & ? & ?). exists t'. split; [lia|done].
      * intros b Hb. apply elem_of_cons in Hb as [->|Hb].
        -- exists (tick s). split; [lia|done].
        -- destruct (Hres b Hb) as (t' & ? & ?). exists t'. split; [lia|done].
Qed.

(** A response that is accepted has status 200 or 206 and no content
    type that contains [text/html]. *)
Lemma acceptsResponse_true m r :
  acceptsResponse P m r = true →
  (status r = 200 ∨ status r = 206) ∧ includes (contentTypeOf r) "text/html" = false.
Proof.
  unfold acceptsResponse, headersLookMarkdown.
  destruct ((status r =? 200) || (status r =? 206)) eqn:Hst; [|done].
  apply orb_true_iff in Hst. rewrite !Z.eqb_eq in Hst. intros Hacc. split; [done|].
  destruct (negb (String.eqb (data r) "")).
  - apply andb_true_iff in Hacc as [_ Hh]. apply negb_true_iff in Hh.
    by apply orb_false_iff in Hh as [_ ?].
  - apply andb_true_iff in Hacc as [_ Hh]. by apply negb_true_iff in Hh.
Qed.

End ProbeRun.

(** [s.endsWith(p)] holds of a string built by appending [p]. *)
Lemma length_append (a p : string) :
  String.length (a +:+ p) = (String.length a + String.length p)%nat.
Proof. induction a as [|c a IH]; [done|]. rewrite append_cons. simpl. by rewrite IH. Qed.

Lemma substring_append (a p : string) (k : nat) :
  substring (String.length a) k (a +:+ p) = substring 0 k p.
Proof. induction a as [|c a IH]; [done|]. rewrite append_cons. simpl. exact IH. Qed.

Lemma endsWith_append (a p : string) : endsWith (a +:+ p) p = true.
Proof.
  unfold endsWith. rewrite length_append.
  replace (String.length a + String.length p - String.length p)%nat
    with (String.length a) by lia.
  rewrite substring_append, substring_all, String.eqb_refl.
  apply andb_true_iff. split; [|done]. apply Nat.leb_le. lia.
Qed.

(** X8: the result of the markdown probe of a URL. The probe returns
    the first of the eleven candidates, in the order of the array, whose
    response is accepted, the candidates before it having been probed and
    refused; the response, to the HEAD request or to the ranged GET request
    after a failed HEAD request, then has status 200 or 206 and a content
    type that does not contain [text/html]. It returns [null] only when
    every candidate has been probed and refused. *)
Theorem X8_probe_result (P : Platform) (W : World) (url : string) (u : URL)
    (s : State) (res : option string) (s' : State) :
  URL_parse P url = Some u →
  checkForMarkdownVersion P W url s = (Ok res, s') →
  match res with
  | Some m =>
      ∃ before after,
        possibleMdUrls url = before ++ m :: after ∧
        (∃ t r, (tick s ≤ t < tick s')%nat ∧
                probeResponse W t m = Some r ∧ acceptsResponse P m r = true ∧
                (status r = 200 ∨ status r = 206) ∧
                includes (contentTypeOf r) "text/html" = false) ∧
        (∀ b, b ∈ before →
              ∃ t, (tick s ≤ t < tick s')%nat ∧ probeAccepts P W t b = false)
  | None =>
      ∀ b, b ∈ possibleMdUrls url →
           ∃ t, (tick s ≤ t < tick s')%nat ∧ probeAccepts P W t b = false
  end.
Proof.
  intros Hu Hrun. unfold checkForMarkdownVersion in Hrun.
  rewrite (bind_ok _ _ _ _ _ (new_URL_ok P url u s Hu)) in Hrun.
  destruct (probeCandidates_spec P W (possibleMdUrls url) s)
    as (res0 & s0 & Hrun0 & _ & Hres).
  rewrite Hrun0 in Hrun. injection Hrun as <- <-.
  destruct res0 as [m|]; [|exact Hres].
  destruct Hres as (before & after & Hcs & (t & Ht & Hacc) & Hbefore).
  exists before, after. split; [done|]. split; [|done].
  unfold probeAccepts in Hacc.
  destruct (probeResponse W t m) as [r|] eqn:Hr; [|done].
  exists t, r. split; [done|]. split; [done|]. split; [done|].
  by apply (acceptsResponse_true P m r).
Qed.

(** X8 on the site that serves [/guide.md] as markdown. *)
Lemma X8_probe_result_witness :
  let run := checkForMarkdownVersion Fixture.platform Fixture.native
               Fixture.guide Fixture.fresh in
  run.1 = Ok (Some Fixture.guide_md) ∧
  ∃ before after,
    possibleMdUrls Fixture.guide = before ++ Fixture.guide_md :: after ∧
    (∃ t r, (tick Fixture.fresh ≤ t < tick run.2)%nat ∧
            probeResponse Fixture.native t Fixture.guide_md = Some r ∧
            acceptsResponse Fixture.platform Fixture.guide_md r = true ∧
            (status r = 200 ∨ status r = 206) ∧
            includes (contentTypeOf r) "text/html" = false) ∧
    (∀ b, b ∈ before →
          ∃ t, (tick Fixture.fresh ≤ t < tick run.2)%nat ∧
               probeAccepts Fixture.platform Fixture.native t b = false).
Proof.
  split; [vm_compute; reflexivity|].
  refine (X8_probe_result Fixture.platform Fixture.native Fixture.guide
            (mkURL Fixture.host "/guide" Fixture.guide) Fixture.fresh
            (Some Fixture.guide_md) _ _ _).
  - vm_compute. reflexivity.
  - vm_compute. reflexivity.
Defined.

(** X9: what the markdown probe does. On a string that is no URL it
    throws before any request. On a URL it does not throw, whatever the
    network does; it issues at least one and at most twenty-two requests,
    each a HEAD or a ranged GET request for one of the candidates; and it
    changes neither the visited set, nor the queue, nor any file or
    directory. *)
Theorem X9_probe_footprint (P : Platform) (W : World) (url : string) (s : State) :
  match URL_parse P url with
  | Some _ =>
      ∃ res s', checkForMarkdownVersion P W url s = (Ok res, s') ∧
                probing (possibleMdUrls url) s s' ∧
                (tick s < tick s' ≤ tick s + 22)%nat
  | None => checkForMarkdownVersion P W url s = (Throw "Invalid URL", s)
  end.
Proof.
  unfold checkForMarkdownVersion.
  destruct (URL_parse P url) as [u|] eqn:Hu.
  - rewrite (bind_ok _ _ _ _ _ (new_URL_ok P url u s Hu)).
    destruct (probeCandidates_spec P W (possibleMdUrls url) s)
      as (res & s' & Hrun & Hp & Hres).
    exists res, s'. split; [done|]. split; [done|].
    destruct Hp as (_ & _ & _ & _ & tr & _ & Ht & Hn & _).
    change (List.length (possibleMdUrls url)) with 11%nat in Hn. split; [|lia].
    destruct res as [m|].
    + destruct Hres as (_ & _ & _ & (t & ? & _) & _). lia.
    + destruct (Hres (replace_suffix ["/"] "" url +:+ ".md")) as (t & ? & _); [|lia].
      unfold possibleMdUrls. apply elem_of_cons. by left.
  - unfold new_URL. rewrite Hu. done.
Qed.

(** X10: a HEAD response decides on its headers alone. When the server
    answers the HEAD request for the first candidate, the URL without its
    trailing slash followed by [.md], with status 200 or 206, an empty body
    and a content type that does not contain [text/html], the probe returns
    that candidate after this one request, whatever the content type says
    otherwise. *)
Theorem X10_first_candidate_by_status (P : Platform) (W : World) (url : string)
    (u : URL) (s : State) (r : Response) :
  let first := replace_suffix ["/"] "" url +:+ ".md" in
  URL_parse P url = Some u →
  net W (tick s) HeadProbe first = Some r →
  status r = 200 ∨ status r = 206 →
  data r = "" →
  includes (contentTypeOf r) "text/html" = false →
  checkForMarkdownVersion P W url s
  = (Ok (Some first), after_request HeadProbe first s).
Proof.
  intros first Hu Hnet Hst Hdata Hhtml. unfold checkForMarkdownVersion.
  rewrite (bind_ok _ _ _ _ _ (new_URL_ok P url u s Hu)).
  change (possibleMdUrls url) with (first :: tl (possibleMdUrls url)).
  rewrite probeCandidates_step.
  assert (answers W (tick s) HeadProbe first defaultStatus = Some r) as Hans.
  { unfold answers. rewrite Hnet. by destruct Hst as [->| ->]. }
  unfold probeAccepts, probeResponse, afterProbe. rewrite Hans.
  assert (acceptsResponse P first r = true) as ->; [|done].
  unfold acceptsResponse, headersLookMarkdown. rewrite Hdata, Hhtml.
  subst first. rewrite endsWith_append.
  destruct Hst as [->| ->]; simpl; by rewrite !orb_true_r.
Qed.

(** X10 for a server that answers every request with status 200, no body
    and the content type [application/json]. *)
Lemma X10_first_candidate_by_status_witness :
  let W := mkWorld (λ _ _ _, Some (mkResponse 200 (Some "application/json") "")) (λ _, "") in
  checkForMarkdownVersion Fixture.platform W Fixture.guide Fixture.fresh
  = (Ok (Some Fixture.guide_md), after_request HeadProbe Fixture.guide_md Fixture.fresh).
Proof.
  refine (X10_first_candidate_by_status Fixture.platform
            (mkWorld (λ _ _ _, Some (mkResponse 200 (Some "application/json") "")) (λ _, ""))
            Fixture.guide (mkURL Fixture.host "/guide" Fixture.guide) Fixture.fresh
            (mkResponse 200 (Some "application/json") "") _ _ _ _ _).
  - vm_compute. reflexivity.
  - reflexivity.
  - by left.
  - reflexivity.
  - vm_compute. reflexivity.
Defined.

(** ** The acceptance of a candidate on its body *)





(** ** The candidates of the probe *)

Lemma replace_first_unfold (needles : list string) (repl s : string) :
  replace_first needles repl s =
  match match_at needles s with
  | Some rest => repl +:+ rest
  | None =>
      match s with
      | EmptyString => EmptyString
      | String c s' => String c (replace_first needles repl s')
      end
  end.
Proof. by destruct s. Qed.

Lemma includes_unfold (s p : string) :
  includes s p =
  String.prefix p s ||
  match s with
  | EmptyString => false
  | String _ s' => includes s' p
  end.
Proof. by destruct s. Qed.

(** A replacement changes nothing in a string in which no needle
    occurs. *)
Lemma replace_first_absent (needles : list string) (repl s : string) :
  Forall (λ n, includes s n = false) needles →
  replace_first needles repl s = s.
Proof.
  induction s as [|c s IH]; intros Habs.
  - rewrite replace_first_unfold.
    assert (match_at needles "" = None) as ->; [|done].
    induction Habs as [|n ns Hn _ IHn]; [done|].
    cbn [match_at]. cbn beta in Hn. rewrite (includes_unfold "" n) in Hn.
    apply orb_false_iff in Hn as [-> _]. exact IHn.
  - rewrite replace_first_unfold.
    assert (match_at needles (String c s) = None) as ->.
    { clear IH. induction Habs as [|n ns Hn _ IHn]; [done|].
      cbn [match_at]. cbn beta in Hn. rewrite (includes_unfold (String c s) n) in Hn.
      apply orb_false_iff in Hn as [-> _]. exact IHn. }
    rewrite IH; [done|]. eapply Forall_impl; [exact Habs|].
    intros n Hn. cbn beta in Hn. rewrite (includes_unfold (String c s) n) in Hn.
    by apply orb_false_iff in Hn as [_ ?].
Qed.

(** X13: a page is a candidate for its own markdown version. For a URL
    in which [/blob/] does not occur, the ninth candidate of the probe is
    the URL itself, so that the page is asked for again, by a HEAD request,
    when the candidates before it are refused. *)
Theorem X13_page_is_its_own_candidate (url : string) :
  includes url "/blob/" = false →
  possibleMdUrls url !! 8%nat = Some url ∧ url ∈ possibleMdUrls url.
Proof.
  intros Habs.
  assert (replace_first ["/blob/"] "/raw/" url = url) as Hsame.
  { apply replace_first_absent. by constructor. }
  split.
  - unfold possibleMdUrls. cbn [lookup list_lookup]. by rewrite Hsame.
  - unfold possibleMdUrls. rewrite Hsame. set_solver.
Qed.

(** X13 for a page of the three-page site. *)
Lemma X13_page_is_its_own_candidate_witness :
  possibleMdUrls Fixture.guide !! 8%nat = Some Fixture.guide ∧
  Fixture.guide ∈ possibleMdUrls Fixture.guide.
Proof.
  refine (X13_page_is_its_own_candidate Fixture.guide _).
  vm_compute. reflexivity.
Defined.

(** ** Pages that are not saved *)

Section Unsaved.

Context (P : Platform) (W : World) (D : Downloader).

(** [processPage] writes no file when the probe, whatever it returns,
    leads to a tail that writes none. *)
Lemma processPage_unsaved (Post : option string → Prop) url d base siteDir :
  (∀ s a s1, checkForMarkdownVersion P W url s = (Ok a, s1) → Post a) →
  (∀ V Q html a, Post a →
     preserves (effect V Q (λ _, False))
       (match a with
        | Some mdUrl =>
            if String.eqb mdUrl ""
            then convertPage P W D html url base siteDir (configOf D (hostname base))
            else console_log (MsgFoundMarkdown mdUrl);;
                 downloadMarkdown P W D mdUrl url siteDir
        | None => convertPage P W D html url base siteDir (configOf D (hostname base))
        end)) →
  ∀ s, let s' := (processPage P W D url d base siteDir s).2 in
       files s' = files s ∧
       ∃ tr, log s' = log s ++ tr ∧ ∀ p c, EvWriteFile p c ∉ tr.
Proof.
  intros Hpost Htail s s'. subst s'. unfold processPage.
  match goal with
  | |- context [modify ?f ≫= (λ _, ?m1 ≫= ?k)] =>
      set (mark := f); set (rest := k tt);
      assert (preserves (effect ({[url]} ∪ visited s)
                           (foundOn P D url base d ({[url]} ∪ visited s))
                           (λ _, False)) rest) as Hrest
  end.
  { subst rest. lazy beta zeta.
    repeat lazymatch goal with
    | |- preserves _ (checkForMarkdownVersion _ _ _ ≫= _) =>
        apply (preserves_bind_post _ Post);
        [ exact Hpost | eauto with frame | intros ? ?; by apply Htail ]
    | |- preserves _ (findAndQueueLinks _ _ _ _ _) =>
        apply effect_findAndQueueLinks; by apply Z.ltb_lt
    | |- _ => frame_step
    end. }
  set (s0 := record (EvLog (MsgProcessing url d)) (mark s)).
  match goal with
  | |- context [(modify mark ≫= ?k0) s] =>
      change ((modify mark ≫= k0) s) with (rest s0)
  end.
  destruct (Hrest s0 eq_refl) as (_ & _ & Hf & tr & Hl & Htr).
  split.
  - apply map_eq. intros q. rewrite Hf; [done|tauto].
  - exists (EvVisited url :: EvLog (MsgProcessing url d) :: tr).
    split; [rewrite Hl; subst s0; simpl; by rewrite <- !app_assoc|].
    intros p c Hin.
    apply elem_of_cons in Hin as [?|Hin]; [discriminate|].
    apply elem_of_cons in Hin as [?|Hin]; [discriminate|].
    rewrite Forall_forall in Htr. by apply Htr in Hin.
Qed.

(** The probe returns [null] when no candidate is ever accepted. *)
Lemma checkForMarkdownVersion_none url :
  (∀ t m, m ∈ possibleMdUrls url → probeAccepts P W t m = false) →
  ∀ s a s1, checkForMarkdownVersion P W url s = (Ok a, s1) → a = None.
Proof.
  intros Hnone s a s1. unfold checkForMarkdownVersion.
  destruct (URL_parse P url) as [u|] eqn:Hu.
  2:{ unfold new_URL. rewrite Hu. discriminate. }
  rewrite (bind_ok _ _ _ _ _ (new_URL_ok P url u s Hu)).
  destruct (probeCandidates_spec P W (possibleMdUrls url) s)
    as (res & s' & -> & _ & Hres).
  intros [= <- _]. destruct res as [m|]; [|done].
  destruct Hres as (before & after & Hcs & (t & _ & Hacc) & _).
  rewrite Hnone in Hacc; [done|]. rewrite Hcs. set_solver.
Qed.

(** The probe returns its first candidate when that candidate is always
    accepted. *)
Lemma checkForMarkdownVersion_first url :
  (∀ t, probeAccepts P W t (replace_suffix ["/"] "" url +:+ ".md") = true) →
  ∀ s a s1, checkForMarkdownVersion P W url s = (Ok a, s1) →
            a = Some (replace_suffix ["/"] "" url +:+ ".md").
Proof.
  intros Hacc s a s1. unfold checkForMarkdownVersion.
  destruct (URL_parse P url) as [u|] eqn:Hu.
  2:{ unfold new_URL. rewrite Hu. discriminate. }
  rewrite (bind_ok _ _ _ _ _ (new_URL_ok P url u s Hu)).
  change (possibleMdUrls url)
    with ((replace_suffix ["/"] "" url +:+ ".md") :: tl (possibleMdUrls url)).
  rewrite probeCandidates_step, Hacc. by intros [= <- _].
Qed.

(** A download whose request fails warns and returns. *)
Lemma downloadMarkdown_rejected mdUrl originalUrl siteDir s :
  answers W (tick s) GetMarkdown mdUrl defaultStatus = None →
  downloadMarkdown P W D mdUrl originalUrl siteDir s =
  (Ok tt, record (EvWarn (MsgFailedToDownloadMarkdown mdUrl))
            (after_request GetMarkdown mdUrl s)).
Proof.
  intros Hans. destruct (axios_rejects W _ _ _ _ Hans) as [e He].
  unfold downloadMarkdown.
  by rewrite (try_throw _ _ _ _ _ (bind_throw _ _ _ _ _ He)).
Qed.

Lemma append_not_empty (a : string) (c : ascii) (b : string) :
  String.eqb (a +:+ String c b) "" = false.
Proof. destruct a; [done|]. by rewrite append_cons. Qed.

End Unsaved.

(** X14: with [preferMarkdown] set for the host of the seed, a page for
    which no candidate of the probe is accepted is not saved: the HTML that
    was fetched is not converted, and [processPage] writes nothing. *)
Theorem X14_preferMarkdown_skips_conversion (P : Platform) (W : World) (D : Downloader)
    (url : string) (d : Z) (base : URL) (siteDir : string) (s : State) :
  preferMarkdown (configOf D (hostname base)) = true →
  (∀ t m, m ∈ possibleMdUrls url → probeAccepts P W t m = false) →
  let s' := (processPage P W D url d base siteDir s).2 in
  files s' = files s ∧
  ∃ tr, log s' = log s ++ tr ∧ ∀ p c, EvWriteFile p c ∉ tr.
Proof.
  intros Hpref Hnone.
  apply (processPage_unsaved P W D (λ a, a = None)).
  - by apply checkForMarkdownVersion_none.
  - intros V Q html a ->. unfold convertPage. rewrite Hpref. frame.
Qed.

(** X14 on the three-page site, which has no markdown version of any
    page. *)
Lemma X14_preferMarkdown_skips_conversion_witness :
  let D := Fixture.downloader false false (Some (mkSiteConfig None None None true)) in
  let s' := (processPage Fixture.platform Fixture.world D Fixture.page_a 1
               Fixture.rootURL Fixture.siteDir Fixture.fresh).2 in
  files s' = files Fixture.fresh ∧
  ∃ tr, log s' = log Fixture.fresh ++ tr ∧ ∀ p c, EvWriteFile p c ∉ tr.
Proof.
  refine (X14_preferMarkdown_skips_conversion Fixture.platform Fixture.world
            (Fixture.downloader false false (Some (mkSiteConfig None None None true)))
            Fixture.page_a 1 Fixture.rootURL Fixture.siteDir Fixture.fresh _ _).
  - vm_compute. reflexivity.
  - intros t m _. reflexivity.
Defined.

(** X15: with [preferMarkdown] set for the host of a page, a candidate
    that turns out to be HTML still produces a file: [extractContent]
    returns the empty string for that host, so that the file of the page
    holds the conversion of the empty string and the content of the
    candidate is lost. *)
Theorem X15_preferMarkdown_html_candidate (P : Platform) (W : World) (D : Downloader)
    (mdUrl originalUrl siteDir : string) (s : State) (r : Response) (u : URL) :
  preferMarkdown (configOf D (hostname u)) = true →
  answers W (tick s) GetMarkdown mdUrl defaultStatus = Some r →
  startsLikeHtml (data r) || includes (contentTypeOf r) "text/html" = true →
  URL_parse P originalUrl = Some u →
  downloadMarkdown P W D mdUrl originalUrl siteDir s =
  saveMarkdown P W D (turndown P "") (fileOf P siteDir u) originalUrl
    (record (EvLog (MsgReturnedHtml mdUrl)) (after_request GetMarkdown mdUrl s)).
Proof.
  intros Hpref Hans Hhtml Hu.
  rewrite (downloadMarkdown_html P W D mdUrl originalUrl siteDir s r u Hans Hhtml Hu).
  unfold extracted. by rewrite Hpref.
Qed.

(** X15 on the site whose [/guide.md] serves the shell of a viewer. *)
Lemma X15_preferMarkdown_html_candidate_witness :
  let D := Fixture.downloader false false (Some (mkSiteConfig None None None true)) in
  downloadMarkdown Fixture.platform Fixture.viewer D
    Fixture.guide_md Fixture.guide Fixture.siteDir Fixture.fresh =
  saveMarkdown Fixture.platform Fixture.viewer D (turndown Fixture.platform "")
    (fileOf Fixture.platform Fixture.siteDir (mkURL Fixture.host "/guide" Fixture.guide))
    Fixture.guide
    (record (EvLog (MsgReturnedHtml Fixture.guide_md))
       (after_request GetMarkdown Fixture.guide_md Fixture.fresh)).
Proof.
  refine (X15_preferMarkdown_html_candidate Fixture.platform Fixture.viewer
            (Fixture.downloader false false (Some (mkSiteConfig None None None true)))
            Fixture.guide_md Fixture.guide Fixture.siteDir Fixture.fresh
            (mkResponse 200 None Fixture.viewer_html)
            (mkURL Fixture.host "/guide" Fixture.guide) _ _ _ _).
  - vm_compute. reflexivity.
  - reflexivity.
  - vm_compute. reflexivity.
  - vm_compute. reflexivity.
Defined.

(** X16: there is no fallback from a markdown version to the HTML of
    the page. When the first candidate of the probe is accepted and the
    request of [downloadMarkdown] for it fails, [processPage] writes
    nothing, although it has fetched the HTML of the page. *)
Theorem X16_failed_download_leaves_page_unsaved (P : Platform) (W : World)
    (D : Downloader) (url : string) (d : Z) (base : URL) (siteDir : string) (s : State) :
  let first := replace_suffix ["/"] "" url +:+ ".md" in
  (∀ t, probeAccepts P W t first = true) →
  (∀ t, answers W t GetMarkdown first defaultStatus = None) →
  let s' := (processPage P W D url d base siteDir s).2 in
  files s' = files s ∧
  ∃ tr, log s' = log s ++ tr ∧ ∀ p c, EvWriteFile p c ∉ tr.
Proof.
  intros first Hacc Hfail.
  apply (processPage_unsaved P W D (λ a, a = Some first)).
  - by apply checkForMarkdownVersion_first.
  - intros V Q html a ->. subst first. rewrite append_not_empty.
    frame. intros s0. rewrite downloadMarkdown_rejected by apply Hfail.
    simpl. transitivity (after_request GetMarkdown (replace_suffix ["/"] "" url +:+ ".md") s0).
    + unfold after_request. transitivity (record (EvRequest GetMarkdown
        (replace_suffix ["/"] "" url +:+ ".md")) s0); [by apply effect_record|].
      by apply effect_silent.
    + by apply effect_record.
Qed.

(** X16 for a server that answers every HEAD request with status 200
    and serves the page, but no markdown. *)
Lemma X16_failed_download_leaves_page_unsaved_witness :
  let W := mkWorld (λ _ req _, match req with
                               | HeadProbe => Some (mkResponse 200 None "")
                               | GetPage => Fixture.page Fixture.guide_html
                               | _ => None
                               end) (λ _, "") in
  let s' := (processPage Fixture.platform W (Fixture.downloader false false None)
               Fixture.guide 0 (mkURL Fixture.host "/guide" Fixture.guide)
               Fixture.siteDir Fixture.fresh).2 in
  files s' = files Fixture.fresh ∧
  ∃ tr, log s' = log Fixture.fresh ++ tr ∧ ∀ p c, EvWriteFile p c ∉ tr.
Proof.
  refine (X16_failed_download_leaves_page_unsaved Fixture.platform
            (mkWorld (λ _ req _, match req with
                                 | HeadProbe => Some (mkResponse 200 None "")
                                 | GetPage => Fixture.page Fixture.guide_html
                                 | _ => None
                                 end) (λ _, ""))
            (Fixture.downloader false false None)
            Fixture.guide 0 (mkURL Fixture.host "/guide" Fixture.guide)
            Fixture.siteDir Fixture.fresh _ _).
  - intros t. reflexivity.
  - intros t. reflexivity.
Defined.


(** ** File names *)

Lemma substring_split (s : string) :
  ∀ i, (i ≤ String.length s)%nat →
       s = substring 0 i s +:+ substring i (String.length s - i) s.
Proof.
  induction s as [|c s IH]; intros [|i] Hi; simpl in *.
  - done.
  - lia.
  - by rewrite substring_all.
  - rewrite append_cons. f_equal. apply IH. lia.
Qed.

(** [s.endsWith(p)] holds only of a string built by appending [p]. *)
Lemma endsWith_inv (s p : string) : endsWith s p = true → ∃ a, s = a +:+ p.
Proof.
  unfold endsWith. intros H. apply andb_true_iff in H as [Hle Heq].
  apply Nat.leb_le in Hle. apply String.eqb_eq in Heq.
  exists (substring 0 (String.length s - String.length p) s).
  pose proof (substring_split s (String.length s - String.length p)) as Hs.
  replace (String.length s - (String.length s - String.length p))%nat
    with (String.length p) in Hs by lia.
  rewrite Heq in Hs. apply Hs. lia.
Qed.

Lemma replace_chars_append (cs : list ascii) (r : ascii) (a b : string) :
  replace_chars cs r (a +:+ b) = replace_chars cs r a +:+ replace_chars cs r b.
Proof.
  induction a as [|c a IH]; [done|].
  rewrite append_cons. cbn [replace_chars]. by rewrite IH, append_cons.
Qed.

(** No character of the class is left by a replacement the substitute
    of which is not in the class. *)
Lemma replace_chars_clean (cs : list ascii) (r : ascii) (s : string) :
  r ∉ cs → Forall (λ c, c ∉ cs) (list_ascii_of_string (replace_chars cs r s)).
Proof.
  intros Hr. induction s as [|c s IH]; [constructor|].
  cbn [replace_chars list_ascii_of_string]. constructor; [|exact IH].
  destruct (existsb (Ascii.eqb c) cs) eqn:Hc; [done|].
  intros Hin. apply not_true_iff_false in Hc. apply Hc.
  apply existsb_exists. exists c. split; [by apply list_elem_of_In|].
  apply Ascii.eqb_refl.
Qed.

Lemma strip_leading_slash_cons (c : ascii) (p : string) :
  strip_leading_slash (String c p) = if Ascii.eqb c "/" then p else String c p.
Proof. destruct c as [[] [] [] [] [] [] [] []]; reflexivity. Qed.

(** Stripping the leading slash keeps a suffix [.md]. *)
Lemma strip_leading_slash_md (a : string) :
  ∃ a', strip_leading_slash (a +:+ ".md") = a' +:+ ".md".
Proof.
  destruct a as [|c a]; [by exists ""|].
  rewrite append_cons, strip_leading_slash_cons.
  destruct (Ascii.eqb c "/"); [by exists a | by exists (String c a)].
Qed.

(** A trailing slash that was appended is the one that is stripped. *)
Lemma strip_trailing_slash_append (p : string) :
  strip_trailing_slash (p +:+ "/") = p.
Proof.
  induction p as [|c p IH]; [done|].
  rewrite append_cons. destruct p as [|c' p]; [done|].
  rewrite append_cons in *.
  change (strip_trailing_slash (String c (String c' (p +:+ "/"))))
    with (String c (strip_trailing_slash (String c' (p +:+ "/")))).
  by rewrite IH.
Qed.

Lemma strip_trailing_slash_cases (p : string) :
  strip_trailing_slash p = p ∨ ∃ a, p = a +:+ "/".
Proof.
  induction p as [|c p IH]; [by left|].
  destruct p as [|c' p].
  - cbn [strip_trailing_slash]. destruct (Ascii.eqb c "/") eqn:Hc; [|by left].
    apply Ascii.eqb_eq in Hc as ->. right. by exists "".
  - destruct IH as [IH|[a Ha]].
    + left.
      change (strip_trailing_slash (String c (String c' p)))
        with (String c (strip_trailing_slash (String c' p))).
      by rewrite IH.
    + right. exists (String c a). by rewrite append_cons, <- Ha.
Qed.

Lemma strip_trailing_slash_none (p : string) :
  endsWith p "/" = false → strip_trailing_slash p = p.
Proof.
  intros Hend. destruct (strip_trailing_slash_cases p) as [?|[a ->]]; [done|].
  by rewrite endsWith_append in Hend.
Qed.

(** The path names [p] and [p/] lead to the same file name. *)
Lemma safePath_trailing_slash (p : string) :
  endsWith p "/" = false → safePath (p +:+ "/") = safePath p.
Proof.
  intros Hend. destruct p as [|c p]; [reflexivity|].
  unfold safePath. rewrite !replace_suffix_slash.
  assert (String.eqb (String c p +:+ "/") "/" || String.eqb (String c p +:+ "/") "" = false)
    as ->.
  { rewrite append_cons. apply orb_false_iff. split; apply String.eqb_neq; [|done].
    intros [= _ Hp]. by destruct p. }
  assert (String.eqb (String c p) "/" || String.eqb (String c p) "" = false) as ->.
  { apply orb_false_iff. split; apply String.eqb_neq; [|done].
    intros Heq. by rewrite Heq in Hend. }
  by rewrite strip_trailing_slash_append, strip_trailing_slash_none.
Qed.

(** X18: the shape of a file name. Whatever the path name of the URL,
    the relative path that [getFilePath] joins to the site directory ends
    with [.md] and contains none of the characters that the method
    replaces: less than, greater than, colon, double quote, bar, question
    mark and star. *)
Theorem X18_safePath_shape (pathname : string) :
  endsWith (safePath pathname) ".md" = true ∧
  Forall (λ c, c ∉ unsafeChars) (list_ascii_of_string (safePath pathname)).
Proof.
  split.
  - unfold safePath. rewrite replace_prefix_slash.
    match goal with
    | |- context [strip_leading_slash ?p3] =>
        assert (∃ a, p3 = a +:+ ".md") as [a ->]
    end.
    { destruct (endsWith _ ".md") eqn:Hmd; simpl.
      - by apply endsWith_inv.
      - by eexists. }
    destruct (strip_leading_slash_md a) as [a' ->].
    rewrite replace_chars_append.
    change (replace_chars unsafeChars "_" ".md") with ".md".
    apply endsWith_append.
  - unfold safePath. apply replace_chars_clean. unfold unsafeChars.
    intros Hin. repeat (apply elem_of_cons in Hin as [?|Hin]; [discriminate|]).
    by apply elem_of_nil in Hin.
Qed.

(** X19: two pages whose path names differ by a trailing slash share
    a file: for URLs with the path names [p] and [p/], [getFilePath]
    returns the same path, so that the page processed second is skipped, or
    with [force] overwrites the first. *)
Theorem X19_trailing_slash_collision (P : Platform) (url1 url2 : string)
    (U1 U2 base1 base2 : URL) (siteDir : string) (s1 s2 : State) :
  URL_parse P url1 = Some U1 →
  URL_parse P url2 = Some U2 →
  endsWith (pathname U1) "/" = false →
  pathname U2 = pathname U1 +:+ "/" →
  (getFilePath P url2 base2 siteDir s2).1 = (getFilePath P url1 base1 siteDir s1).1.
Proof.
  intros H1 H2 Hend Hp.
  rewrite (getFilePath_ok P url1 base1 siteDir U1 s1 H1).
  rewrite (getFilePath_ok P url2 base2 siteDir U2 s2 H2).
  unfold fileOf. simpl. by rewrite Hp, safePath_trailing_slash.
Qed.

(** X19 at [/a] and [/a/]. *)
Lemma X19_trailing_slash_collision_witness :
  (getFilePath Fixture.platform "https://docs.example.com/a/" Fixture.rootURL
     Fixture.siteDir Fixture.fresh).1
  = (getFilePath Fixture.platform Fixture.page_a Fixture.rootURL
       Fixture.siteDir Fixture.fresh).1.
Proof.
  refine (X19_trailing_slash_collision Fixture.platform
            Fixture.page_a "https://docs.example.com/a/"
            (mkURL Fixture.host "/a" Fixture.page_a)
            (mkURL Fixture.host "/a/" "https://docs.example.com/a/")
            Fixture.rootURL Fixture.rootURL Fixture.siteDir
            Fixture.fresh Fixture.fresh _ _ _ _).
  - vm_compute. reflexivity.
  - vm_compute. reflexivity.
  - vm_compute. reflexivity.
  - reflexivity.
Defined.

Lemma replace_prefix_present (n h : string) : replace_prefix n "" (n +:+ h) = h.
Proof.
  unfold replace_prefix, match_at.
  assert (String.prefix n (n +:+ h) = true) as ->
    by (apply prefix_app; by exists h).
  rewrite length_append, substring_append.
  replace (String.length n + String.length h - String.length n)%nat
    with (String.length h) by lia.
  apply substring_all.
Qed.

Lemma replace_prefix_absent (n h : string) :
  startsWith h n = false → replace_prefix n "" h = h.
Proof. unfold startsWith, replace_prefix, match_at. by intros ->. Qed.

(** X20: the name of a site directory. [getSiteName] returns a name
    without a dot; and a host name and the same host name after [www.]
    get the same name, so that the two sites share a directory. *)
Theorem X20_getSiteName (hostname : string) :
  Forall (λ c, c ≠ "."%char) (list_ascii_of_string (getSiteName hostname)) ∧
  (startsWith hostname "www." = false →
   getSiteName ("www." +:+ hostname) = getSiteName hostname).
Proof.
  split.
  - unfold getSiteName. eapply Forall_impl.
    + apply replace_chars_clean. intros Hin.
      apply elem_of_cons in Hin as [?|Hin]; [discriminate|]. by apply elem_of_nil in Hin.
    + intros c Hc ->. apply Hc. by left.
  - intros Hwww. unfold getSiteName.
    by rewrite replace_prefix_present, replace_prefix_absent.
Qed.

(** ** The order of a crawl *)

Lemma banded_dequeue L e q ch :
  banded L (e :: q) →
  Forall (λ c, depth c = depth e + 1) ch →
  L ≤ depth e ∧ banded (depth e) (q ++ ch).
Proof.
  intros (q1 & q2 & Hq & H1 & H2) Hch. destruct q1 as [|e1 q1].
  - simpl in Hq. subst q2. apply Forall_cons in H2 as [He H2].
    split; [lia|]. exists q, ch. split; [done|]. split; [|done].
    eapply Forall_impl; [exact H2|]. intros c Hc. simpl in Hc. lia.
  - injection Hq as <- ->. apply Forall_cons in H1 as [He H1].
    split; [lia|]. exists q1, (q2 ++ ch). split; [by rewrite app_assoc|].
    split.
    + eapply Forall_impl; [exact H1|]. intros c Hc. simpl in Hc. lia.
    + apply Forall_app. split.
      * eapply Forall_impl; [exact H2|]. intros c Hc. simpl in Hc. lia.
      * done.
Qed.

Lemma processedDepths_routine Wr tr :
  Forall (routine Wr) tr → processedDepths tr = [].
Proof.
  induction 1 as [|ev tr Hev _ IH]; [done|].
  unfold processedDepths in *. cbn [omap list_omap].
  destruct ev as [| [] | | | | |]; simpl in *; done.
Qed.

(** The loop processes its pages level by level. *)
Lemma download_loop_bfs P W D base siteDir fuel :
  ∀ s r s' L,
    download_loop P W D fuel base siteDir s = Some (r, s') →
    banded L (queue s) →
    ∃ tr, log s' = log s ++ tr ∧
          Forall (λ d, L ≤ d) (processedDepths tr) ∧
          StronglySorted Z.le (processedDepths tr).
Proof.
  induction fuel as [|fuel IH]; intros s r s' L Hrun Hband; [discriminate|].
  destruct (queue s) as [|e q] eqn:Hq.
  { rewrite download_loop_done in Hrun by done. injection Hrun as <- <-.
    exists []. rewrite app_nil_r. repeat split; constructor. }
  rewrite (download_loop_step P W D fuel base siteDir s e q Hq) in Hrun.
  destruct (dequeued_footprint P W D e base siteDir (set_queue q s))
    as [[_ Heq]|(_ & _ & _ & (ch & Hch & HQ) & _ & tr1 & Hl1 & Htr1)].
  - rewrite Heq in Hrun.
    destruct (banded_dequeue L e q [] Hband) as [Hle Hb]; [constructor|].
    rewrite app_nil_r in Hb.
    apply (IH _ _ _ (depth e)) in Hrun as (tr & Hl & Hall & Hsorted); [|exact Hb].
    exists tr. split; [exact Hl|]. split; [|exact Hsorted].
    eapply Forall_impl; [exact Hall|]. intros d Hd. simpl in Hd. lia.
  - simpl in Hch, Hl1.
    destruct (banded_dequeue L e q ch Hband) as [Hle Hb].
    { eapply Forall_impl; [exact HQ|]. by intros c (? & _). }
    apply (IH _ _ _ (depth e)) in Hrun as (tr2 & Hl2 & Hall & Hsorted);
      [|by rewrite Hch].
    exists (EvVisited (url e) :: EvLog (MsgProcessing (url e) (depth e)) :: tr1 ++ tr2).
    split; [rewrite Hl2, Hl1; simpl; by rewrite <- !app_assoc|].
    assert (processedDepths
              (EvVisited (url e) :: EvLog (MsgProcessing (url e) (depth e)) :: tr1 ++ tr2)
            = depth e :: processedDepths tr2) as ->.
    { unfold processedDepths. cbn [omap list_omap depthOf]. f_equal.
      rewrite omap_app.
      change (omap depthOf tr1) with (processedDepths tr1).
      by rewrite (processedDepths_routine _ _ Htr1). }
    split.
    + constructor; [exact Hle|].
      eapply Forall_impl; [exact Hall|]. intros d Hd. simpl in Hd. lia.
    + by constructor.
Qed.

(** X21: a crawl is breadth-first. In the trace of a run the depths at
    which the pages are processed never decrease: every page of a level is
    processed before any page of the next. *)
Theorem X21_breadth_first (P : Platform) (W : World) (D : Downloader)
    (fuel : nat) (startUrl : string) (base : URL) (s : State)
    (r : Result unit) (s' : State) :
  URL_parse P startUrl = Some base →
  download P W D fuel startUrl s = Some (r, s') →
  ∃ tr, log s' = log s ++ tr ∧ StronglySorted Z.le (processedDepths tr).
Proof.
  intros Hu Hrun. rewrite (download_parsed P W D fuel startUrl base s Hu) in Hrun.
  apply (download_loop_bfs _ _ _ _ _ _ _ _ _ 0) in Hrun as (tr & Hl & _ & Hsorted).
  - simpl in Hl. eexists. split; [by rewrite Hl, <- app_assoc|]. exact Hsorted.
  - exists [mkEntry startUrl 0], []. repeat split; repeat constructor.
Qed.

(** X21 on the three-page site. *)
Lemma X21_breadth_first_witness :
  let run := download Fixture.platform Fixture.world
               (Fixture.downloader false false None) 5 Fixture.root Fixture.fresh in
  let s' := default Fixture.fresh (outcome id run) in
  ∃ tr, log s' = log Fixture.fresh ++ tr ∧ StronglySorted Z.le (processedDepths tr).
Proof.
  refine (X21_breadth_first Fixture.platform Fixture.world
            (Fixture.downloader false false None) 5 Fixture.root Fixture.rootURL
            Fixture.fresh (Ok tt) _ _ _).
  - vm_compute. reflexivity.
  - vm_compute. reflexivity.
Defined.

(** ** The last resort of the extraction *)



(** ** The page request *)

Lemma answers_Some W t req u v r :
  answers W t req u v = Some r → net W t req u = Some r ∧ v (status r) = true.
Proof.
  unfold answers. destruct (net W t req u) as [r'|]; [|done].
  destruct (v (status r')) eqn:Hv; [|done]. by intros [= <-].
Qed.

(** X23: the result of [fetchPage]. The method does not throw and
    issues between one and three requests. A response that it returns is
    the first answer, among at most three attempts, whose status is at
    least 200 and below 400; it returns [null] exactly when three attempts
    in a row have failed. It changes neither the visited set, nor the
    queue, nor any file. *)
Theorem X23_fetchPage_result (W : World) (url : string) (s : State) :
  ∃ res s',
    fetchPage W url s = (Ok res, s') ∧
    (tick s < tick s' ≤ tick s + 3)%nat ∧
    visited s' = visited s ∧ queue s' = queue s ∧ files s' = files s ∧
    match res with
    | Some r =>
        200 ≤ status r < 400 ∧
        ∃ t, (tick s ≤ t)%nat ∧ tick s' = S t ∧
             net W t GetPage url = Some r ∧
             ∀ t', (tick s ≤ t' < t)%nat → answers W t' GetPage url pageStatus = None
    | None =>
        ∀ t, (tick s ≤ t < tick s + 3)%nat → answers W t GetPage url pageStatus = None
    end.
Proof.
  rewrite fetchPage_cases. cbv zeta.
  assert (∀ r t, answers W t GetPage url pageStatus = Some r →
                 200 ≤ status r < 400 ∧ net W t GetPage url = Some r) as Hst.
  { intros r t Hr. apply answers_Some in Hr as [? Hv]. split; [|done].
    unfold pageStatus in Hv. apply andb_true_iff in Hv as [H1 H2].
    apply Z.leb_le in H1. apply Z.ltb_lt in H2. lia. }
  destruct (answers W (0 + tick s) GetPage url pageStatus) as [r0|] eqn:H0;
    [|destruct (answers W (1 + tick s) GetPage url pageStatus) as [r1|] eqn:H1;
      [|destruct (answers W (2 + tick s) GetPage url pageStatus) as [r2|] eqn:H2]].
  - eexists _, _. split; [reflexivity|]. simpl. repeat (split; [done || lia|]).
    destruct (Hst _ _ H0). split; [done|]. exists (tick s).
    repeat (split; [done || lia|]). intros t' ?. lia.
  - eexists _, _. split; [reflexivity|]. simpl. repeat (split; [done || lia|]).
    destruct (Hst _ _ H1). split; [done|]. exists (S (tick s)).
    repeat (split; [done || lia|]). intros t' ?.
    assert (t' = (0 + tick s)%nat) as -> by lia. done.
  - eexists _, _. split; [reflexivity|]. simpl. repeat (split; [done || lia|]).
    destruct (Hst _ _ H2). split; [done|]. exists (S (S (tick s))).
    repeat (split; [done || lia|]). intros t' ?.
    assert (t' = (0 + tick s)%nat ∨ t' = (1 + tick s)%nat) as [-> | ->] by lia; done.
  - eexists _, _. split; [reflexivity|]. simpl. repeat (split; [done || lia|]).
    intros t ?.
    assert (t = (0 + tick s)%nat ∨ t = (1 + tick s)%nat ∨ t = (2 + tick s)%nat)
      as [-> | [-> | ->]] by lia; done.
Qed.

(** ** The order of the selectors *)

Section Selectors.

Context (P : Platform).



End Selectors.

